(** * The TensorFlow batch-execution interface

    A shallow embedding of [pennylane/interfaces/batch/tensorflow.py]:
    the forward pass [execute] / [_execute] and the gradient closure
    [grad_fn] it hands to [tf.custom_gradient].

    The tapes are mutable Python objects shared between the caller, the
    executor and the closure, so they live in a store indexed by object
    identity.  The closure's [nonlocal jacs] variable is a cell of a second
    store.  Calls that leave the file (the execution function, the gradient
    function, [batch_vjp], a processing function, [tape._update], and the
    executor itself) are recorded in a trace, so that "is called once" and
    "is never called" are statements about that trace.

    The execution function, the gradient function, [batch_vjp] and the
    processing functions are black boxes: each sees its arguments as they
    are at the time of the call and either returns or raises.  Code of the
    package that the file calls but that is not among the sources at hand
    is either a parameter of the development or modelled from the
    specification, and marked as such. *)

From Stdlib Require Import ZArith String Bool Arith Lia List.
Import ListNotations.
Local Open Scope string_scope.
Local Open Scope list_scope.

Set Implicit Arguments.

Section Executor.

(** The carrier of numeric entries, with the two operations a contraction
    needs.  No law is assumed of them. *)
Variable num : Type.
Variable nzero : num.
Variables nadd nmul : num -> num -> num.

(** A tape parameter (a [tf.Variable], a tensor or a plain number), whether
    the autodiff framework tracks it, and [qml.math.unwrap] on one value. *)
Variable param : Type.
Variable requires_grad : param -> bool.
Variable unwrap_param : param -> param.

(** The operations and measurements of a tape, opaque to the executor. *)
Variable circuit : Type.

(** Values of keyword options, auxiliary TensorFlow variables, and the
    payload of an exception raised by a backend call. *)
Variable kwval : Type.
Variable tfvar : Type.
Variable backend_error : Type.

Definition Kwargs : Type := list (string * kwval).

(** ** Outcomes of Python calls *)

Inductive Exn : Type :=
| ValueError (msg : string)
| BackendError (e : backend_error).

Inductive Outcome (A : Type) : Type :=
| Ok (a : A)
| Raise (e : Exn).
Arguments Raise {A} e.

(** ** Arrays *)

Inductive Host : Type := Numpy | TensorFlow.

Record Arr (A : Type) : Type := mkArr { host : Host; payload : A }.

Definition Vector : Type := list num.

(** A Jacobian: one row per output entry, [ncols] columns, one per
    trainable parameter. *)
Record Matrix : Type := mkMatrix { ncols : nat; rows : list (list num) }.

Definition Res : Type := Arr Vector.
Definition Jac : Type := Arr Matrix.
Definition Scalar : Type := Arr num.

(** [tf.convert_to_tensor] *)
Definition convert_to_tensor {A : Type} (a : Arr A) : Arr A :=
  mkArr TensorFlow (payload a).

(** Modelled from the spec: [qml.gradients.compute_vjp] is not part of the
    sources at hand.  The glossary defines the VJP as the contraction of an
    upstream gradient vector with a Jacobian matrix: entry [j] is the sum
    over the output entries [i] of [dy[i] * jac[i][j]]. *)
Definition vjp_entry (dy : Vector) (m : Matrix) (j : nat) : num :=
  fold_right nadd nzero
    (map (fun dr => nmul (fst dr) (nth j (snd dr) nzero)) (combine dy (rows m))).

Definition compute_vjp (d : Res) (jac : Jac) : list Scalar :=
  map (fun j => mkArr (host d) (vjp_entry (payload d) (payload jac) j))
      (seq 0 (ncols (payload jac))).

(** ** Tapes *)

Record TapeState : Type := mkTape {
  operations : circuit;
  parameters : list param;          (* every parameter, in order *)
  trainable_params : list nat       (* indices into [parameters] *)
}.

(** Modelled from the spec: [qml.math.get_trainable_indices] is not part of
    the sources at hand.  It derives the trainable positions from the
    tape's own parameter list. *)
Fixpoint trainable_from (i : nat) (params : list param) : list nat :=
  match params with
  | [] => []
  | p :: ps =>
      if requires_grad p then i :: trainable_from (S i) ps
      else trainable_from (S i) ps
  end.

Definition get_trainable_indices (params : list param) : list nat :=
  trainable_from 0 params.

(** Modelled from the spec: [tape.get_parameters()] is not part of the
    sources at hand.  With [trainable_only=True] (the default) it returns
    the parameters at the trainable positions, in that order. *)
Definition get_parameters (t : TapeState) : list param :=
  flat_map (fun i => match nth_error (parameters t) i with
                     | Some p => [p]
                     | None => []
                     end)
           (trainable_params t).

(** [tape._update()] refreshes the tape's cached metadata.  Its code is not
    part of the sources at hand; it is an arbitrary function of the tape. *)
Variable tape_update : TapeState -> TapeState.

(** ** Callables handed to the executor *)

(** What [inspect] can see of an attribute value. *)
Inductive PyObj : Type :=
| BoundMethod (self : nat)           (* a method, with the identity of [__self__] *)
| PlainObj.

Record ExecuteFn : Type := mkExecuteFn {
  exec_call : list TapeState -> Kwargs -> Outcome (list Res * list Jac)
}.

Record GradientFn : Type := mkGradientFn {
  gf_module : option string;         (* [inspect.getmodule(f).__name__], if any *)
  gf_fn : option PyObj;              (* the attribute [f.fn], if any *)
  gf_call : list TapeState -> Kwargs -> Outcome (list Jac)
}.

Definition ProcessingFn : Type := list Res -> Outcome (list Scalar).

(** [qml.gradients.batch_vjp(tapes, dy, gradient_fn, reduction, gradient_kwargs)]:
    its code is not part of the sources at hand.  It returns the
    new VJP tapes and a processing function, or raises. *)
Variable batch_vjp :
  list TapeState -> list Res -> GradientFn -> string -> Kwargs ->
  Outcome (list TapeState * ProcessingFn).

(** ** The store and the trace *)

(** The tape objects, by identity. *)
Definition Store : Type := nat -> TapeState.

Definition upd {V : Type} (f : nat -> V) (k : nat) (v : V) : nat -> V :=
  fun k' => if Nat.eqb k' k then v else f k'.

(** [tape.set_parameters(params, trainable_only=False)] *)
Definition set_parameters (t : nat) (params : list param) (st : Store) : Store :=
  upd st t (mkTape (operations (st t)) params (trainable_params (st t))).

(** The view of a batch that a callee gets: the tape objects as they are
    at the time of the call. *)
Definition view (tapes : list nat) (st : Store) : list TapeState :=
  map st tapes.

Inductive Event : Type :=
| CallExecute (tapes : list nat) (device : nat) (execute_fn : ExecuteFn)
    (gradient_fn : GradientFn) (gradient_kwargs : Kwargs) (_n max_diff : Z)
| CallExecuteFn (f : ExecuteFn) (tapes : list TapeState) (kwargs : Kwargs)
| CallGradientFn (g : GradientFn) (tapes : list TapeState) (kwargs : Kwargs)
| CallBatchVjp (tapes : list TapeState) (dy : list Res) (g : GradientFn)
    (reduction : string) (gradient_kwargs : Kwargs)
| CallProcessingFn (results : list Res)
| CallUpdate (tape : nat).

Record State : Type := mkState {
  tape_store : Store;
  tape_next : nat;                   (* first tape identity not yet in use *)
  jacs_store : nat -> list Jac;      (* the [jacs] variable of each closure *)
  jacs_next : nat;
  trace : list Event
}.

Definition set_tapes (st : Store) (s : State) : State :=
  mkState st (tape_next s) (jacs_store s) (jacs_next s) (trace s).

Definition M (A : Type) : Type := State -> Outcome A * State.

Definition ret {A : Type} (a : A) : M A := fun s => (Ok a, s).

Definition raise {A : Type} (e : Exn) : M A := fun s => (Raise e, s).

Definition bind {A B : Type} (m : M A) (k : A -> M B) : M B :=
  fun s =>
    match m s with
    | (Ok a, s1) => k a s1
    | (Raise e, s1) => (Raise e, s1)
    end.

Notation "x <- m ;; k" := (bind m (fun x => k))
  (at level 61, m at next level, right associativity).
Notation "m ;; k" := (bind m (fun _ => k))
  (at level 61, right associativity).

Definition log (e : Event) : M unit :=
  fun s => (Ok tt, mkState (tape_store s) (tape_next s) (jacs_store s)
                           (jacs_next s) (trace s ++ [e])).

Definition modify_tapes (f : Store -> Store) : M unit :=
  fun s => (Ok tt, set_tapes (f (tape_store s)) s).

Fixpoint for_each {A : Type} (f : A -> M unit) (l : list A) : M unit :=
  match l with
  | [] => ret tt
  | x :: xs => f x ;; for_each f xs
  end.

(** ** [qml.tape.Unwrap] *)

(** Modelled from the spec: [qml.tape.Unwrap] is not part of the sources at
    hand.  It is a scoped context: entering binds every tape's parameters
    to concrete numeric values and remembers the original ones, leaving
    puts the original ones back, the last tape entered first. *)
Fixpoint unwrap_enter (tapes : list nat) (st : Store)
  : list (nat * list param) * Store :=
  match tapes with
  | [] => ([], st)
  | t :: ts =>
      let original := parameters (st t) in
      let (saved, st') :=
        unwrap_enter ts (set_parameters t (map unwrap_param original) st) in
      ((t, original) :: saved, st')
  end.

Definition unwrap_exit (saved : list (nat * list param)) (st : Store) : Store :=
  fold_right (fun e st' => set_parameters (fst e) (snd e) st') st saved.

(** [with qml.tape.Unwrap(tapes...): body].  Python runs [__exit__] however
    the body ends, and [Unwrap.__exit__] lets an exception through. *)
Definition with_Unwrap {A : Type} (tapes : list nat) (body : M A) : M A :=
  fun s =>
    let (saved, st1) := unwrap_enter tapes (tape_store s) in
    let (r, s2) := body (set_tapes st1 s) in
    (r, set_tapes (unwrap_exit saved (tape_store s2)) s2).

(** ** Calls that leave the file *)

Definition call_execute_fn (f : ExecuteFn) (tapes : list nat) (kwargs : Kwargs)
  : M (list Res * list Jac) :=
  fun s =>
    let v := view tapes (tape_store s) in
    (log (CallExecuteFn f v kwargs) ;; (fun s' => (exec_call f v kwargs, s'))) s.

Definition call_gradient_fn (g : GradientFn) (tapes : list nat) (kwargs : Kwargs)
  : M (list Jac) :=
  fun s =>
    let v := view tapes (tape_store s) in
    (log (CallGradientFn g v kwargs) ;; (fun s' => (gf_call g v kwargs, s'))) s.

Definition call_processing_fn (pf : ProcessingFn) (results : list Res)
  : M (list Scalar) :=
  log (CallProcessingFn results) ;; (fun s => (pf results, s)).

(** [tape._update()] on the tape object [t] *)
Definition update (t : nat) : M unit :=
  log (CallUpdate t) ;;
  modify_tapes (fun st => upd st t (tape_update (st t))).

(** New tape objects get the next free identities. *)
Fixpoint alloc_store (new : list TapeState) (t : nat) (st : Store) : Store :=
  match new with
  | [] => st
  | ts :: rest => alloc_store rest (S t) (upd st t ts)
  end.

Definition alloc_tapes (new : list TapeState) (s : State) : list nat * State :=
  (seq (tape_next s) (length new),
   mkState (alloc_store new (tape_next s) (tape_store s))
           (tape_next s + length new) (jacs_store s) (jacs_next s) (trace s)).

Definition call_batch_vjp (tapes : list nat) (dy : list Res) (g : GradientFn)
    (reduction : string) (gradient_kwargs : Kwargs)
  : M (list nat * ProcessingFn) :=
  fun s =>
    let v := view tapes (tape_store s) in
    (log (CallBatchVjp v dy g reduction gradient_kwargs) ;;
     (fun s' =>
        match batch_vjp v dy g reduction gradient_kwargs with
        | Ok (new, pf) =>
            let (ids, s2) := alloc_tapes new s' in (Ok (ids, pf), s2)
        | Raise e => (Raise e, s')
        end)) s.

(** ** The executor *)

(** The variables [grad_fn] closes over.  [jacs] is rebound by the closure
    ([nonlocal jacs]), so the closure holds the cell, not the value. *)
Record Closure : Type := mkClosure {
  cl_jacs : nat;
  cl_tapes : list nat;
  cl_device : nat;
  cl_execute_fn : ExecuteFn;
  cl_gradient_fn : GradientFn;
  cl_gradient_kwargs : Kwargs;
  cl_n : Z;
  cl_max_diff : Z
}.

(** What [tf.custom_gradient] registers for one call of [_execute]: the
    positional arguments, the results, and the closure that computes the
    vector-Jacobian product. *)
Record Node : Type := mkNode {
  node_inputs : list param;
  node_outputs : list Res;
  node_grad : Closure
}.

Definition new_cell (jacs : list Jac) : M nat :=
  fun s =>
    let c := jacs_next s in
    (Ok c, mkState (tape_store s) (tape_next s) (upd (jacs_store s) c jacs)
                   (S c) (trace s)).

Definition read_cell (c : nat) : M (list Jac) :=
  fun s => (Ok (jacs_store s c), s).

Definition write_cell (c : nat) (jacs : list Jac) : M unit :=
  fun s => (Ok tt, mkState (tape_store s) (tape_next s)
                           (upd (jacs_store s) c jacs) (jacs_next s) (trace s)).

Definition _execute (parameters : list param) (tapes : list nat) (device : nat)
    (execute_fn : ExecuteFn) (gradient_fn : GradientFn)
    (gradient_kwargs : Kwargs) (_n max_diff : Z) : M Node :=
  r <- with_Unwrap tapes (call_execute_fn execute_fn tapes gradient_kwargs) ;;
  let res := map convert_to_tensor (fst r) in
  let jacs := map convert_to_tensor (snd r) in
  c <- new_cell jacs ;;
  ret (mkNode parameters res
         (mkClosure c tapes device execute_fn gradient_fn gradient_kwargs
                    _n max_diff)).

(** The first loop of [execute], one tape. *)
Definition set_trainable_params (t : nat) (st : Store) : Store :=
  let params := parameters (st t) in
  upd st t (mkTape (operations (st t)) params (get_trainable_indices params)).

Definition set_all_trainable (tapes : list nat) (st : Store) : Store :=
  fold_left (fun st' t => set_trainable_params t st') tapes st.

(** The second loop of [execute]. *)
Definition collect_parameters (tapes : list nat) : M (list param) :=
  fun s => (Ok (flat_map (fun t => get_parameters (tape_store s t)) tapes), s).

Definition execute (tapes : list nat) (device : nat) (execute_fn : ExecuteFn)
    (gradient_fn : GradientFn) (gradient_kwargs : Kwargs) (_n max_diff : Z)
  : M Node :=
  log (CallExecute tapes device execute_fn gradient_fn gradient_kwargs
                   _n max_diff) ;;
  modify_tapes (set_all_trainable tapes) ;;
  parameters <- collect_parameters tapes ;;
  _execute parameters tapes device execute_fn gradient_fn gradient_kwargs
           _n max_diff.

(** ** The gradient closure *)

(** Python's [needle in hay] on strings *)
Fixpoint str_in (needle hay : string) {struct hay} : bool :=
  String.prefix needle hay ||
  match hay with
  | EmptyString => false
  | String _ rest => str_in needle rest
  end.

(** [getattr(inspect.getmodule(gradient_fn), "__name__", "")] *)
Definition module_name (g : GradientFn) : string :=
  match gf_module g with
  | Some m => m
  | None => EmptyString
  end.

(** ["pennylane.gradients" in module_name] *)
Definition is_gradient_transform (g : GradientFn) : bool :=
  str_in "pennylane.gradients" (module_name g).

(** [hasattr(gradient_fn, "fn") and inspect.ismethod(gradient_fn.fn)
     and gradient_fn.fn.__self__ is device] *)
Definition is_device_method (g : GradientFn) (device : nat) : bool :=
  match gf_fn g with
  | Some (BoundMethod self) => Nat.eqb self device
  | _ => false
  end.

(** The two loops [for d, jac in zip(dy, jacs): vjps.extend(compute_vjp(d, jac))] *)
Definition contract (dy : list Res) (jacs : list Jac) : list Scalar :=
  flat_map (fun dj => compute_vjp (fst dj) (snd dj)) (combine dy jacs).

Inductive GradOut : Type :=
| Vjps (vjps : list Scalar)
| VjpsWithVariables (vjps : list Scalar) (variables : list tfvar).

Definition vjps_of (o : GradOut) : list Scalar :=
  match o with
  | Vjps v => v
  | VjpsWithVariables v _ => v
  end.

(** [(vjps, variables) if variables is not None else vjps] *)
Definition with_variables (variables : option (list tfvar)) (vjps : list Scalar)
  : GradOut :=
  match variables with
  | Some v => VjpsWithVariables vjps v
  | None => Vjps vjps
  end.

(** The branch [_n == max_diff] *)
Definition vjp_depth_exhausted (cl : Closure) (dy : list Res) : M (list Scalar) :=
  b <- with_Unwrap (cl_tapes cl)
         (for_each update (cl_tapes cl) ;;
          call_batch_vjp (cl_tapes cl) dy (cl_gradient_fn cl) "extend"
                         (cl_gradient_kwargs cl)) ;;
  r <- call_execute_fn (cl_execute_fn cl) (fst b) [] ;;
  vjps <- call_processing_fn (snd b) (fst r) ;;
  ret (map convert_to_tensor vjps).

(** The branch [_n != max_diff] *)
Definition vjp_recursive (cl : Closure) (dy : list Res) : M (list Scalar) :=
  b <- call_batch_vjp (cl_tapes cl) dy (cl_gradient_fn cl) "extend"
                      (cl_gradient_kwargs cl) ;;
  node <- execute (fst b) (cl_device cl) (cl_execute_fn cl) (cl_gradient_fn cl)
                  (cl_gradient_kwargs cl) (cl_n cl + 1) (cl_max_diff cl) ;;
  call_processing_fn (snd b) (node_outputs node).

(** The branch of a device method *)
Definition vjp_device (cl : Closure) (dy : list Res) : M (list Scalar) :=
  jacs <- with_Unwrap (cl_tapes cl)
            (jacs <- call_gradient_fn (cl_gradient_fn cl) (cl_tapes cl)
                                      (cl_gradient_kwargs cl) ;;
             write_cell (cl_jacs cl) jacs ;;
             ret jacs) ;;
  ret (contract dy jacs).

Definition grad_fn (cl : Closure) (dy : list Res)
    (variables : option (list tfvar)) : M GradOut :=
  jacs <- read_cell (cl_jacs cl) ;;
  vjps <- match jacs with
          | _ :: _ => ret (contract dy jacs)
          | [] =>
              if is_gradient_transform (cl_gradient_fn cl) then
                if Z.eqb (cl_n cl) (cl_max_diff cl)
                then vjp_depth_exhausted cl dy
                else vjp_recursive cl dy
              else if is_device_method (cl_gradient_fn cl) (cl_device cl) then
                vjp_device cl dy
              else raise (ValueError "Unknown gradient function.")
          end ;;
  ret (with_variables variables vjps).

(** ** Vocabulary of the statements *)

(** The store the execution function sees on the forward pass: trainable
    positions recomputed, parameters unwrapped. *)
Definition forward_store (tapes : list nat) (st : Store) : Store :=
  snd (unwrap_enter tapes (set_all_trainable tapes st)).

Definition forward_view (tapes : list nat) (st : Store) : list TapeState :=
  view tapes (forward_store tapes st).

(** The loop [for tape in tapes: tape._update()] on the store. *)
Definition update_all (tapes : list nat) (st : Store) : Store :=
  fold_left (fun st' t => upd st' t (tape_update (st' t))) tapes st.

(** The calls to the executor itself that a trace records. *)
Definition is_executor_call (e : Event) : bool :=
  match e with
  | CallExecute _ _ _ _ _ _ _ => true
  | _ => false
  end.

Definition executor_calls (tr : list Event) : list Event :=
  filter is_executor_call tr.

(** The trainable-parameter count of a batch. *)
Definition trainable_count (tapes : list nat) (st : Store) : nat :=
  list_sum (map (fun t => length (trainable_params (st t))) tapes).

(** Successive invocations of one closure. *)
Fixpoint invoke_all (cl : Closure)
    (calls : list (list Res * option (list tfvar))) : M (list GradOut) :=
  match calls with
  | [] => ret []
  | c :: rest =>
      o <- grad_fn cl (fst c) (snd c) ;;
      os <- invoke_all cl rest ;;
      ret (o :: os)
  end.

(** A computation keeps the parameters of the tapes that satisfy [P]: it
    never frees a tape, and whatever its outcome, each such tape that
    existed before has the parameters it had. *)
Definition keeps_parameters {A : Type} (P : nat -> Prop) (m : M A) : Prop :=
  forall s,
    tape_next s <= tape_next (snd (m s)) /\
    forall t, t < tape_next s -> P t ->
      parameters (tape_store (snd (m s)) t) = parameters (tape_store s t).

(** The Jacobians have one column per trainable parameter of their tape. *)
Definition shaped (jacs : list Jac) (tapes : list TapeState) : Prop :=
  Forall2 (fun j t => ncols (payload j) = length (trainable_params t)) jacs tapes.

(** * Properties *)

(** ** The store *)

Lemma upd_same (V : Type) (f : nat -> V) k v : upd f k v k = v.
Proof. unfold upd. now rewrite Nat.eqb_refl. Qed.

Lemma upd_other (V : Type) (f : nat -> V) k v k' : k' <> k -> upd f k v k' = f k'.
Proof. unfold upd. intros H. apply Nat.eqb_neq in H. now rewrite H. Qed.

Lemma set_parameters_same t params st :
  parameters (set_parameters t params st t) = params.
Proof. unfold set_parameters. now rewrite upd_same. Qed.

Lemma set_parameters_other t params st t' :
  t' <> t -> set_parameters t params st t' = st t'.
Proof. intros H. unfold set_parameters. now rewrite upd_other. Qed.

Lemma set_parameters_trainable t params st t' :
  trainable_params (set_parameters t params st t') = trainable_params (st t').
Proof.
  unfold set_parameters. destruct (Nat.eq_dec t' t) as [->|H].
  - now rewrite upd_same.
  - now rewrite upd_other.
Qed.

(** ** The scope of [Unwrap] *)

Lemma unwrap_enter_other tapes : forall st t,
  ~ In t tapes -> snd (unwrap_enter tapes st) t = st t.
Proof.
  induction tapes as [|t0 ts IH]; intros st t Hin; simpl; [reflexivity|].
  destruct (unwrap_enter ts _) as [saved st'] eqn:E. simpl.
  assert (Hst : st' = snd (unwrap_enter ts
                  (set_parameters t0 (map unwrap_param (parameters (st t0))) st)))
    by now rewrite E.
  rewrite Hst, IH by (intros H; apply Hin; now right).
  apply set_parameters_other. intros ->. apply Hin. now left.
Qed.

Lemma unwrap_enter_trainable tapes : forall st t,
  trainable_params (snd (unwrap_enter tapes st) t) = trainable_params (st t).
Proof.
  induction tapes as [|t0 ts IH]; intros st t; simpl; [reflexivity|].
  destruct (unwrap_enter ts _) as [saved st'] eqn:E. simpl.
  replace st' with (snd (unwrap_enter ts
                  (set_parameters t0 (map unwrap_param (parameters (st t0))) st)))
    by now rewrite E.
  now rewrite IH, set_parameters_trainable.
Qed.

(** Inside the scope every tape of the batch holds unwrapped values. *)
Lemma unwrap_enter_unwrapped tapes : forall st t,
  In t tapes ->
  exists l, parameters (snd (unwrap_enter tapes st) t) = map unwrap_param l.
Proof.
  induction tapes as [|t0 ts IH]; intros st t Hin; [contradiction|].
  simpl. destruct (unwrap_enter ts _) as [saved st'] eqn:E. simpl.
  assert (Hst : st' = snd (unwrap_enter ts
                  (set_parameters t0 (map unwrap_param (parameters (st t0))) st)))
    by now rewrite E.
  destruct (in_dec Nat.eq_dec t ts) as [Hts|Hts].
  - rewrite Hst. now apply IH.
  - destruct Hin as [->|Hin]; [|contradiction].
    rewrite Hst, unwrap_enter_other by assumption.
    rewrite set_parameters_same. eauto.
Qed.

Lemma unwrap_exit_trainable saved : forall st t,
  trainable_params (unwrap_exit saved st t) = trainable_params (st t).
Proof.
  induction saved as [|e saved IH]; intros st t; simpl; [reflexivity|].
  now rewrite set_parameters_trainable.
Qed.

Lemma unwrap_exit_other saved : forall st t,
  ~ In t (map fst saved) -> unwrap_exit saved st t = st t.
Proof.
  induction saved as [|e saved IH]; intros st t Hin; simpl; [reflexivity|].
  rewrite set_parameters_other.
  - apply IH. intros H. apply Hin. now right.
  - intros ->. apply Hin. now left.
Qed.

Lemma unwrap_enter_saved tapes : forall st,
  map fst (fst (unwrap_enter tapes st)) = tapes.
Proof.
  induction tapes as [|t0 ts IH]; intros st; simpl; [reflexivity|].
  specialize (IH (set_parameters t0 (map unwrap_param (parameters (st t0))) st)).
  destruct (unwrap_enter ts _) as [saved st']. simpl in *. now rewrite IH.
Qed.

(** Leaving the scope restores the parameters every tape of the batch had
    on entry, whatever happened to the store in between. *)
Lemma unwrap_scope tapes : forall st st2 t,
  In t tapes ->
  parameters (unwrap_exit (fst (unwrap_enter tapes st)) st2 t) = parameters (st t).
Proof.
  induction tapes as [|t0 ts IH]; intros st st2 t Hin; [contradiction|].
  simpl.
  pose proof (IH (set_parameters t0 (map unwrap_param (parameters (st t0))) st) st2 t)
    as IHt.
  destruct (unwrap_enter ts _) as [saved st'] eqn:E. simpl in *.
  destruct (Nat.eq_dec t t0) as [->|Hne].
  - apply set_parameters_same.
  - rewrite set_parameters_other by assumption.
    destruct Hin as [Heq|Hin]; [now symmetry in Heq|].
    rewrite IHt by assumption. now rewrite set_parameters_other.
Qed.

(** ** The first two loops of [execute] *)

Lemma set_all_trainable_parameters tapes : forall st t,
  parameters (set_all_trainable tapes st t) = parameters (st t).
Proof.
  unfold set_all_trainable.
  induction tapes as [|t0 ts IH]; intros st t; simpl; [reflexivity|].
  rewrite IH. unfold set_trainable_params.
  destruct (Nat.eq_dec t t0) as [->|H].
  - now rewrite upd_same.
  - now rewrite upd_other.
Qed.

Lemma set_all_trainable_other tapes : forall st t,
  ~ In t tapes -> set_all_trainable tapes st t = st t.
Proof.
  unfold set_all_trainable.
  induction tapes as [|t0 ts IH]; intros st t Hin; simpl; [reflexivity|].
  rewrite IH by (intros H; apply Hin; now right).
  unfold set_trainable_params. apply upd_other.
  intros ->. apply Hin. now left.
Qed.

Lemma set_all_trainable_in tapes : forall st t,
  In t tapes ->
  trainable_params (set_all_trainable tapes st t)
  = get_trainable_indices (parameters (st t)).
Proof.
  induction tapes as [|t0 ts IH]; intros st t Hin; [contradiction|].
  change (set_all_trainable (t0 :: ts) st)
    with (set_all_trainable ts (set_trainable_params t0 st)).
  destruct (in_dec Nat.eq_dec t ts) as [Hts|Hts].
  - rewrite IH by assumption. f_equal.
    change (set_trainable_params t0 st) with (set_all_trainable [t0] st).
    apply set_all_trainable_parameters.
  - destruct Hin as [->|Hin]; [|contradiction].
    rewrite set_all_trainable_other by assumption.
    unfold set_trainable_params. now rewrite upd_same.
Qed.

Lemma trainable_from_select pre : forall params,
  flat_map (fun i => match nth_error (pre ++ params) i with
                     | Some p => [p]
                     | None => []
                     end)
           (trainable_from (length pre) params)
  = filter requires_grad params.
Proof.
  intros params. revert pre.
  induction params as [|p ps IH]; intros pre; simpl; [reflexivity|].
  specialize (IH (pre ++ [p])).
  rewrite <- app_assoc, length_app, Nat.add_1_r in IH. simpl in IH.
  destruct (requires_grad p); simpl.
  - rewrite nth_error_app2, Nat.sub_diag by lia. simpl. now rewrite IH.
  - exact IH.
Qed.

(** After the first loop, [tape.get_parameters()] is the sub-list of the
    tracked parameters, in the tape's order. *)
Lemma get_parameters_trainable ops params :
  get_parameters (mkTape ops params (get_trainable_indices params))
  = filter requires_grad params.
Proof. exact (trainable_from_select [] params). Qed.

Lemma trainable_from_length params : forall i,
  length (trainable_from i params) = length (filter requires_grad params).
Proof.
  induction params as [|p ps IH]; intros i; simpl; [reflexivity|].
  destruct (requires_grad p); simpl; now rewrite IH.
Qed.

Lemma collect_after_trainable tapes st :
  flat_map (fun t => get_parameters (set_all_trainable tapes st t)) tapes
  = flat_map (fun t => filter requires_grad (parameters (st t))) tapes.
Proof.
  rewrite !flat_map_concat_map. f_equal. apply map_ext_in. intros t Hin.
  pose proof (@set_all_trainable_in tapes st t Hin) as Ht.
  pose proof (set_all_trainable_parameters tapes st t) as Hp.
  destruct (set_all_trainable tapes st t) as [ops ps tr]. simpl in *. subst.
  apply get_parameters_trainable.
Qed.

(** ** The forward pass, step by step *)

Lemma execute_run tapes device f g kw n md s :
  execute tapes device f g kw n md s =
  let st0 := set_all_trainable tapes (tape_store s) in
  let st1 := forward_store tapes (tape_store s) in
  let st2 := unwrap_exit (fst (unwrap_enter tapes st0)) st1 in
  let tr := trace s ++ [CallExecute tapes device f g kw n md;
                        CallExecuteFn f (view tapes st1) kw] in
  match exec_call f (view tapes st1) kw with
  | Ok r =>
      (Ok (mkNode (flat_map (fun t => get_parameters (st0 t)) tapes)
                  (map convert_to_tensor (fst r))
                  (mkClosure (jacs_next s) tapes device f g kw n md)),
       mkState st2 (tape_next s)
               (upd (jacs_store s) (jacs_next s) (map convert_to_tensor (snd r)))
               (S (jacs_next s)) tr)
  | Raise e => (Raise e, mkState st2 (tape_next s) (jacs_store s) (jacs_next s) tr)
  end.
Proof.
  unfold execute, _execute, forward_store, bind, log, modify_tapes,
    collect_parameters, with_Unwrap, call_execute_fn, new_cell, ret, set_tapes.
  simpl.
  destruct (unwrap_enter tapes (set_all_trainable tapes (tape_store s)))
    as [saved st1] eqn:E.
  unfold bind, log. simpl. rewrite <- app_assoc. simpl.
  destruct (exec_call f (view tapes st1) kw) as [r|e]; reflexivity.
Qed.

(** ** The gradient closure, branch by branch *)

Lemma grad_fn_direct cl dy variables s j js :
  jacs_store s (cl_jacs cl) = j :: js ->
  grad_fn cl dy variables s
  = (Ok (with_variables variables (contract dy (j :: js))), s).
Proof.
  intros H. unfold grad_fn, bind, read_cell, ret. now rewrite H.
Qed.

Lemma grad_fn_unknown_run cl dy variables s :
  jacs_store s (cl_jacs cl) = [] ->
  is_gradient_transform (cl_gradient_fn cl) = false ->
  is_device_method (cl_gradient_fn cl) (cl_device cl) = false ->
  grad_fn cl dy variables s
  = (Raise (ValueError "Unknown gradient function."), s).
Proof.
  intros Hj Ht Hd. unfold grad_fn, bind, read_cell, raise.
  now rewrite Hj, Ht, Hd.
Qed.

Lemma grad_fn_device_run cl dy variables s :
  jacs_store s (cl_jacs cl) = [] ->
  is_gradient_transform (cl_gradient_fn cl) = false ->
  is_device_method (cl_gradient_fn cl) (cl_device cl) = true ->
  grad_fn cl dy variables s =
  let saved := fst (unwrap_enter (cl_tapes cl) (tape_store s)) in
  let st1 := snd (unwrap_enter (cl_tapes cl) (tape_store s)) in
  let v := view (cl_tapes cl) st1 in
  let tr := trace s ++ [CallGradientFn (cl_gradient_fn cl) v (cl_gradient_kwargs cl)] in
  match gf_call (cl_gradient_fn cl) v (cl_gradient_kwargs cl) with
  | Ok jacs =>
      (Ok (with_variables variables (contract dy jacs)),
       mkState (unwrap_exit saved st1) (tape_next s)
               (upd (jacs_store s) (cl_jacs cl) jacs) (jacs_next s) tr)
  | Raise e =>
      (Raise e, mkState (unwrap_exit saved st1) (tape_next s) (jacs_store s)
                        (jacs_next s) tr)
  end.
Proof.
  intros Hj Ht Hd.
  unfold grad_fn, bind, read_cell. rewrite Hj, Ht, Hd.
  unfold vjp_device, with_Unwrap, bind, call_gradient_fn, write_cell, ret,
    set_tapes.
  destruct (unwrap_enter (cl_tapes cl) (tape_store s)) as [saved st1].
  unfold bind, log. simpl.
  destruct (gf_call _ _ _) as [jacs|e]; reflexivity.
Qed.

Lemma for_each_update_run tapes : forall s,
  for_each update tapes s
  = (Ok tt, mkState (update_all tapes (tape_store s)) (tape_next s)
                    (jacs_store s) (jacs_next s)
                    (trace s ++ map CallUpdate tapes)).
Proof.
  induction tapes as [|t ts IH]; intros s; simpl.
  - unfold ret. rewrite app_nil_r. now destruct s.
  - unfold bind, update, log, modify_tapes, set_tapes. simpl.
    unfold bind. simpl. rewrite IH. simpl. now rewrite <- app_assoc.
Qed.

Lemma grad_fn_depth_exhausted_run cl dy variables s :
  jacs_store s (cl_jacs cl) = [] ->
  is_gradient_transform (cl_gradient_fn cl) = true ->
  cl_n cl = cl_max_diff cl ->
  grad_fn cl dy variables s =
  let saved := fst (unwrap_enter (cl_tapes cl) (tape_store s)) in
  let st1 := snd (unwrap_enter (cl_tapes cl) (tape_store s)) in
  let st2 := update_all (cl_tapes cl) st1 in
  let v := view (cl_tapes cl) st2 in
  let tr1 := trace s ++ map CallUpdate (cl_tapes cl)
             ++ [CallBatchVjp v dy (cl_gradient_fn cl) "extend"
                              (cl_gradient_kwargs cl)] in
  match batch_vjp v dy (cl_gradient_fn cl) "extend" (cl_gradient_kwargs cl) with
  | Raise e =>
      (Raise e, mkState (unwrap_exit saved st2) (tape_next s) (jacs_store s)
                        (jacs_next s) tr1)
  | Ok (new, pf) =>
      let ids := seq (tape_next s) (length new) in
      let st3 := unwrap_exit saved (alloc_store new (tape_next s) st2) in
      let tr2 := tr1 ++ [CallExecuteFn (cl_execute_fn cl) (view ids st3) []] in
      let final tr := mkState st3 (tape_next s + length new) (jacs_store s)
                              (jacs_next s) tr in
      match exec_call (cl_execute_fn cl) (view ids st3) [] with
      | Raise e => (Raise e, final tr2)
      | Ok r =>
          match pf (fst r) with
          | Raise e => (Raise e, final (tr2 ++ [CallProcessingFn (fst r)]))
          | Ok out =>
              (Ok (with_variables variables (map convert_to_tensor out)),
               final (tr2 ++ [CallProcessingFn (fst r)]))
          end
      end
  end.
Proof.
  intros Hj Ht Hn.
  unfold grad_fn, bind, read_cell. rewrite Hj, Ht, Hn, Z.eqb_refl.
  unfold vjp_depth_exhausted, with_Unwrap, bind, set_tapes.
  destruct (unwrap_enter (cl_tapes cl) (tape_store s)) as [saved st1].
  rewrite for_each_update_run. simpl.
  unfold call_batch_vjp, bind, log. simpl. rewrite <- app_assoc.
  destruct (batch_vjp _ _ _ _ _) as [[new pf]|e]; [|reflexivity].
  simpl. unfold call_execute_fn, bind, log. simpl.
  destruct (exec_call _ _ _) as [r|e]; [|reflexivity].
  unfold call_processing_fn, bind, log, ret. simpl.
  destruct (pf (fst r)) as [out|e]; reflexivity.
Qed.

Lemma grad_fn_recursive_run cl dy variables s :
  jacs_store s (cl_jacs cl) = [] ->
  is_gradient_transform (cl_gradient_fn cl) = true ->
  cl_n cl <> cl_max_diff cl ->
  grad_fn cl dy variables s =
  let v := view (cl_tapes cl) (tape_store s) in
  let s0 := mkState (tape_store s) (tape_next s) (jacs_store s) (jacs_next s)
              (trace s ++ [CallBatchVjp v dy (cl_gradient_fn cl) "extend"
                                        (cl_gradient_kwargs cl)]) in
  match batch_vjp v dy (cl_gradient_fn cl) "extend" (cl_gradient_kwargs cl) with
  | Raise e => (Raise e, s0)
  | Ok (new, pf) =>
      (node <- execute (fst (alloc_tapes new s0)) (cl_device cl)
                 (cl_execute_fn cl) (cl_gradient_fn cl) (cl_gradient_kwargs cl)
                 (cl_n cl + 1) (cl_max_diff cl) ;;
       vjps <- call_processing_fn pf (node_outputs node) ;;
       ret (with_variables variables vjps)) (snd (alloc_tapes new s0))
  end.
Proof.
  intros Hj Ht Hn. apply Z.eqb_neq in Hn.
  unfold grad_fn, bind, read_cell. rewrite Hj, Ht, Hn.
  unfold vjp_recursive, bind, call_batch_vjp. unfold bind, log. simpl.
  destruct (batch_vjp _ _ _ _ _) as [[new pf]|e]; [|reflexivity].
  simpl. destruct (execute _ _ _ _ _ _ _ _) as [[node|e] s2]; [|reflexivity].
  unfold call_processing_fn, bind, log, ret. simpl.
  destruct (pf _) as [out|e]; reflexivity.
Qed.

(** ** Allocation of the VJP tapes *)

Lemma alloc_store_old new : forall t st t',
  t' < t -> alloc_store new t st t' = st t'.
Proof.
  induction new as [|ts rest IH]; intros t st t' Hlt; simpl; [reflexivity|].
  rewrite IH by lia. apply upd_other. lia.
Qed.

Lemma view_alloc_store new : forall t st,
  view (seq t (length new)) (alloc_store new t st) = new.
Proof.
  unfold view.
  induction new as [|ts rest IH]; intros t st; simpl; [reflexivity|].
  rewrite IH, alloc_store_old by lia. now rewrite upd_same.
Qed.

(** The fresh tapes are out of reach of the scope of [Unwrap] around the
    tapes of the batch. *)
Lemma view_fresh_after_exit tapes new next st st' :
  Forall (fun t => t < next) tapes ->
  view (seq next (length new))
       (unwrap_exit (fst (unwrap_enter tapes st)) (alloc_store new next st'))
  = new.
Proof.
  intros Hwf.
  transitivity (view (seq next (length new)) (alloc_store new next st'));
    [|apply view_alloc_store].
  unfold view. apply map_ext_in. intros t Hin.
  apply unwrap_exit_other. rewrite unwrap_enter_saved.
  intros Ht. rewrite Forall_forall in Hwf. apply Hwf in Ht.
  apply in_seq in Hin. lia.
Qed.

Lemma executor_calls_app tr1 tr2 :
  executor_calls (tr1 ++ tr2) = executor_calls tr1 ++ executor_calls tr2.
Proof. apply filter_app. Qed.

Lemma executor_calls_updates tapes : executor_calls (map CallUpdate tapes) = [].
Proof. induction tapes; simpl; auto. Qed.

(** ** The claims *)

(** C1.  When the execution function returned a non-empty list of Jacobians
    on the forward pass, the gradient closure returns the contraction of
    [dy[i]] against [jacobians[i]], tape by tape, extended into one flat
    vector.  The state is the same after the call as before it: the trace
    has no new entry, so the executor, the gradient transform and the
    gradient function of the device were not called. *)
Theorem grad_fn_forward_jacobians tapes device f g kw n md s res jacs :
  exec_call f (forward_view tapes (tape_store s)) kw = Ok (res, jacs) ->
  jacs <> [] ->
  exists node s1,
    execute tapes device f g kw n md s = (Ok node, s1) /\
    forall dy variables,
      grad_fn (node_grad node) dy variables s1
      = (Ok (with_variables variables
               (flat_map (fun dj => compute_vjp (fst dj) (snd dj))
                         (combine dy (map convert_to_tensor jacs)))),
         s1).
Proof.
  intros Hex Hne. rewrite execute_run. cbv zeta.
  unfold forward_view in Hex. rewrite Hex.
  eexists. eexists. split; [reflexivity|].
  intros dy variables.
  destruct jacs as [|j js]; [congruence|].
  erewrite grad_fn_direct; [reflexivity|].
  simpl. now rewrite upd_same.
Qed.

(** C4.  With empty forward Jacobians and a gradient function that is
    neither from the package of gradient transforms nor a wrapper of a
    method of the device, the closure raises the configuration error, and
    the state after the call is the state before it. *)
Theorem grad_fn_unknown_gradient_function cl dy variables s :
  jacs_store s (cl_jacs cl) = [] ->
  is_gradient_transform (cl_gradient_fn cl) = false ->
  is_device_method (cl_gradient_fn cl) (cl_device cl) = false ->
  grad_fn cl dy variables s
  = (Raise (ValueError "Unknown gradient function."), s).
Proof. apply grad_fn_unknown_run. Qed.

(** C7.  With empty forward Jacobians and a gradient function that is not a
    transform and wraps a method of the device handed to the executor, the
    closure calls the gradient function once, on the unwrapped tapes and
    with the keyword options, and returns the contraction of each [dy[i]]
    against the Jacobian [i] it got, extended into one vector.  The
    executor is not called. *)
Theorem grad_fn_device_method cl dy variables s jacs :
  jacs_store s (cl_jacs cl) = [] ->
  is_gradient_transform (cl_gradient_fn cl) = false ->
  is_device_method (cl_gradient_fn cl) (cl_device cl) = true ->
  let v := view (cl_tapes cl) (snd (unwrap_enter (cl_tapes cl) (tape_store s))) in
  gf_call (cl_gradient_fn cl) v (cl_gradient_kwargs cl) = Ok jacs ->
  Forall (fun t => exists l, parameters t = map unwrap_param l) v /\
  exists s',
    grad_fn cl dy variables s
    = (Ok (with_variables variables
             (flat_map (fun dj => compute_vjp (fst dj) (snd dj))
                       (combine dy jacs))),
       s') /\
    trace s' = trace s ++ [CallGradientFn (cl_gradient_fn cl) v
                                           (cl_gradient_kwargs cl)] /\
    executor_calls (trace s') = executor_calls (trace s).
Proof.
  intros Hj Ht Hd v Hg. split.
  - apply Forall_forall. intros ts Hin. unfold v, view in Hin.
    apply in_map_iff in Hin. destruct Hin as [t [<- Hin]].
    now apply unwrap_enter_unwrapped.
  - rewrite grad_fn_device_run by assumption. cbv zeta. fold v. rewrite Hg.
    eexists. split; [reflexivity|]. simpl. split; [reflexivity|].
    rewrite executor_calls_app. simpl. apply app_nil_r.
Qed.

(** C9, as the code has it.  The branch of the device method stores what
    the gradient function returned in the closure's [jacs].  When that is a
    non-empty list, every later invocation of the closure returns the
    contraction against those Jacobians and leaves the state as it is: the
    gradient function is not called again. *)
Theorem grad_fn_device_jacobians_kept cl dy variables s jacs :
  jacs_store s (cl_jacs cl) = [] ->
  is_gradient_transform (cl_gradient_fn cl) = false ->
  is_device_method (cl_gradient_fn cl) (cl_device cl) = true ->
  gf_call (cl_gradient_fn cl)
          (view (cl_tapes cl) (snd (unwrap_enter (cl_tapes cl) (tape_store s))))
          (cl_gradient_kwargs cl) = Ok jacs ->
  jacs <> [] ->
  let s' := snd (grad_fn cl dy variables s) in
  jacs_store s' (cl_jacs cl) = jacs /\
  forall calls,
    invoke_all cl calls s'
    = (Ok (map (fun c => with_variables (snd c)
                           (flat_map (fun dj => compute_vjp (fst dj) (snd dj))
                                     (combine (fst c) jacs)))
               calls),
       s').
Proof.
  intros Hj Ht Hd Hg Hne s'.
  assert (Hcell : jacs_store s' (cl_jacs cl) = jacs).
  { unfold s'. rewrite grad_fn_device_run by assumption. cbv zeta.
    rewrite Hg. simpl. apply upd_same. }
  split; [exact Hcell|].
  destruct jacs as [|j js]; [congruence|].
  induction calls as [|c rest IH]; simpl; [reflexivity|].
  unfold bind. rewrite (grad_fn_direct cl (fst c) (snd c) s' Hcell).
  unfold bind in IH. rewrite IH. reflexivity.
Qed.

(** C8, as the code has it.  The forward pass returns what the execution
    function returned, entry by entry and in the same order, each converted
    to a TensorFlow tensor: as many entries as the execution function gave,
    whatever the number of tapes.  The parameter vector that enters the
    differentiation graph lists the trainable parameters tape by tape, each
    tape's in its own order, so its length is the sum of the tapes'
    trainable-parameter counts. *)
Theorem execute_results_and_parameters tapes device f g kw n md s res jacs :
  exec_call f (forward_view tapes (tape_store s)) kw = Ok (res, jacs) ->
  exists node s1,
    execute tapes device f g kw n md s = (Ok node, s1) /\
    node_outputs node = map convert_to_tensor res /\
    length (node_outputs node) = length res /\
    Forall (fun r => host r = TensorFlow) (node_outputs node) /\
    node_inputs node
    = flat_map (fun t => filter requires_grad (parameters (tape_store s t))) tapes /\
    length (node_inputs node) = trainable_count tapes (tape_store s1).
Proof.
  intros Hex. rewrite execute_run. cbv zeta.
  unfold forward_view in Hex. rewrite Hex.
  eexists. eexists. split; [reflexivity|]. simpl.
  split; [reflexivity|]. split; [now rewrite length_map|].
  split; [apply Forall_forall; intros r Hin; apply in_map_iff in Hin;
          destruct Hin as [x [<- _]]; reflexivity|].
  split; [apply collect_after_trainable|].
  rewrite collect_after_trainable, length_flat_map. unfold trainable_count.
  f_equal. apply map_ext_in. intros t Hin.
  rewrite unwrap_exit_trainable. unfold forward_store.
  rewrite unwrap_enter_trainable, set_all_trainable_in by assumption.
  symmetry. apply trainable_from_length.
Qed.

(** C2.  With empty forward Jacobians, a gradient function from the package
    of gradient transforms and [_n < max_diff], once [batch_vjp] has built
    the VJP tapes the closure is one call of [execute] on those tapes, with
    [_n + 1] and the same device, execution function, gradient function,
    keyword options and [max_diff], followed by the processing function on
    what that call returns.  The trace gains exactly one call of the
    executor; when that call returns, the trace ends with the call of the
    processing function on its results, and the closure returns what the
    processing function returns, or raises what it raises. *)
Theorem grad_fn_recursive_call cl dy variables s new pf :
  jacs_store s (cl_jacs cl) = [] ->
  is_gradient_transform (cl_gradient_fn cl) = true ->
  (cl_n cl < cl_max_diff cl)%Z ->
  batch_vjp (view (cl_tapes cl) (tape_store s)) dy (cl_gradient_fn cl) "extend"
            (cl_gradient_kwargs cl) = Ok (new, pf) ->
  let s0 := mkState (tape_store s) (tape_next s) (jacs_store s) (jacs_next s)
              (trace s ++ [CallBatchVjp (view (cl_tapes cl) (tape_store s)) dy
                             (cl_gradient_fn cl) "extend" (cl_gradient_kwargs cl)]) in
  let vjp_tapes := fst (alloc_tapes new s0) in
  let s1 := snd (alloc_tapes new s0) in
  view vjp_tapes (tape_store s1) = new /\
  grad_fn cl dy variables s
  = bind (execute vjp_tapes (cl_device cl) (cl_execute_fn cl) (cl_gradient_fn cl)
                  (cl_gradient_kwargs cl) (cl_n cl + 1) (cl_max_diff cl))
         (fun node =>
            bind (call_processing_fn pf (node_outputs node))
                 (fun vjps => ret (with_variables variables vjps))) s1 /\
  executor_calls (trace (snd (grad_fn cl dy variables s)))
  = executor_calls (trace s)
    ++ [CallExecute vjp_tapes (cl_device cl) (cl_execute_fn cl) (cl_gradient_fn cl)
                    (cl_gradient_kwargs cl) (cl_n cl + 1) (cl_max_diff cl)] /\
  forall node s2,
    execute vjp_tapes (cl_device cl) (cl_execute_fn cl) (cl_gradient_fn cl)
            (cl_gradient_kwargs cl) (cl_n cl + 1) (cl_max_diff cl) s1
    = (Ok node, s2) ->
    let final :=
      mkState (tape_store s2) (tape_next s2) (jacs_store s2) (jacs_next s2)
              (trace s
               ++ [CallBatchVjp (view (cl_tapes cl) (tape_store s)) dy
                     (cl_gradient_fn cl) "extend" (cl_gradient_kwargs cl);
                   CallExecute vjp_tapes (cl_device cl) (cl_execute_fn cl)
                     (cl_gradient_fn cl) (cl_gradient_kwargs cl) (cl_n cl + 1)
                     (cl_max_diff cl);
                   CallExecuteFn (cl_execute_fn cl)
                     (forward_view vjp_tapes (tape_store s1))
                     (cl_gradient_kwargs cl);
                   CallProcessingFn (node_outputs node)]) in
    (forall out,
       pf (node_outputs node) = Ok out ->
       grad_fn cl dy variables s = (Ok (with_variables variables out), final)) /\
    (forall e,
       pf (node_outputs node) = Raise e ->
       grad_fn cl dy variables s = (Raise e, final)).
Proof.
  intros Hj Ht Hn Hb s0 vjp_tapes s1.
  assert (Hrun := @grad_fn_recursive_run cl dy variables s Hj Ht
                    ltac:(intros H; rewrite H in Hn; lia)).
  cbv zeta in Hrun. rewrite Hb in Hrun. fold s0 vjp_tapes s1 in Hrun.
  split; [apply view_alloc_store|]. split; [exact Hrun|]. split.
  - rewrite Hrun. unfold bind. rewrite execute_run. cbv zeta.
    destruct (exec_call _ _ _) as [r|e]; simpl.
    + unfold call_processing_fn, bind, log, ret. simpl.
      destruct (pf _) as [out|e]; simpl;
        rewrite !executor_calls_app; simpl; now rewrite !app_nil_r.
    + rewrite !executor_calls_app. simpl. now rewrite !app_nil_r.
  - intros node s2 Hex final.
    assert (Htr : trace s2
                  = trace s1
                    ++ [CallExecute vjp_tapes (cl_device cl) (cl_execute_fn cl)
                          (cl_gradient_fn cl) (cl_gradient_kwargs cl)
                          (cl_n cl + 1) (cl_max_diff cl);
                        CallExecuteFn (cl_execute_fn cl)
                          (forward_view vjp_tapes (tape_store s1))
                          (cl_gradient_kwargs cl)]).
    { rewrite execute_run in Hex. cbv zeta in Hex. unfold forward_view.
      destruct (exec_call _ _ _); inversion Hex; reflexivity. }
    assert (Hfinal : final
                     = mkState (tape_store s2) (tape_next s2) (jacs_store s2)
                               (jacs_next s2)
                               (trace s2 ++ [CallProcessingFn (node_outputs node)])).
    { unfold final. f_equal. rewrite Htr. unfold s1, s0. simpl.
      now rewrite <- !app_assoc. }
    rewrite Hfinal, Hrun. unfold bind. rewrite Hex.
    unfold call_processing_fn, bind, log, ret. simpl.
    split; intros x Hx; now rewrite Hx.
Qed.

(** C3.  With empty forward Jacobians, a gradient function from the package
    of gradient transforms and [_n = max_diff], the closure unwraps the
    tapes, calls [_update] on each, calls [batch_vjp] with the reduction
    "extend", executes the VJP tapes once through the execution function
    and returns the processing function's result, converted to tensors.
    The executor is not called. *)
Theorem grad_fn_depth_exhausted cl dy variables s new pf r j out :
  jacs_store s (cl_jacs cl) = [] ->
  is_gradient_transform (cl_gradient_fn cl) = true ->
  cl_n cl = cl_max_diff cl ->
  Forall (fun t => t < tape_next s) (cl_tapes cl) ->
  let v := view (cl_tapes cl)
             (update_all (cl_tapes cl)
                (snd (unwrap_enter (cl_tapes cl) (tape_store s)))) in
  batch_vjp v dy (cl_gradient_fn cl) "extend" (cl_gradient_kwargs cl)
  = Ok (new, pf) ->
  exec_call (cl_execute_fn cl) new [] = Ok (r, j) ->
  pf r = Ok out ->
  exists s',
    grad_fn cl dy variables s
    = (Ok (with_variables variables (map convert_to_tensor out)), s') /\
    trace s'
    = trace s ++ map CallUpdate (cl_tapes cl)
      ++ [CallBatchVjp v dy (cl_gradient_fn cl) "extend" (cl_gradient_kwargs cl);
          CallExecuteFn (cl_execute_fn cl) new [];
          CallProcessingFn r] /\
    executor_calls (trace s') = executor_calls (trace s).
Proof.
  intros Hj Ht Hn Hwf v Hb Hex Hpf.
  rewrite grad_fn_depth_exhausted_run by assumption. cbv zeta. fold v.
  rewrite Hb, view_fresh_after_exit by assumption. rewrite Hex. simpl.
  rewrite Hpf. eexists. split; [reflexivity|]. simpl.
  split; [now rewrite <- !app_assoc|].
  rewrite !executor_calls_app, executor_calls_updates. simpl.
  now rewrite !app_nil_r.
Qed.

(** C10.  The forward pass calls the execution function with the keyword
    options; the branch [_n = max_diff] calls it on the VJP tapes with no
    keyword option, and the only call of that branch that receives the
    keyword options is [batch_vjp]. *)
Theorem execute_fn_keyword_options :
  (forall tapes device f g kw n md s,
     trace (snd (execute tapes device f g kw n md s))
     = trace s ++ [CallExecute tapes device f g kw n md;
                   CallExecuteFn f (forward_view tapes (tape_store s)) kw]) /\
  (forall cl dy variables s new pf,
     jacs_store s (cl_jacs cl) = [] ->
     is_gradient_transform (cl_gradient_fn cl) = true ->
     cl_n cl = cl_max_diff cl ->
     Forall (fun t => t < tape_next s) (cl_tapes cl) ->
     let v := view (cl_tapes cl)
                (update_all (cl_tapes cl)
                   (snd (unwrap_enter (cl_tapes cl) (tape_store s)))) in
     batch_vjp v dy (cl_gradient_fn cl) "extend" (cl_gradient_kwargs cl)
     = Ok (new, pf) ->
     exists tail,
       trace (snd (grad_fn cl dy variables s))
       = trace s ++ map CallUpdate (cl_tapes cl)
         ++ [CallBatchVjp v dy (cl_gradient_fn cl) "extend" (cl_gradient_kwargs cl);
             CallExecuteFn (cl_execute_fn cl) new []] ++ tail /\
       (tail = [] \/ exists r, tail = [CallProcessingFn r])).
Proof.
  split.
  - intros. rewrite execute_run. cbv zeta. unfold forward_view.
    destruct (exec_call _ _ _); reflexivity.
  - intros cl dy variables s new pf Hj Ht Hn Hwf v Hb.
    rewrite grad_fn_depth_exhausted_run by assumption. cbv zeta. fold v.
    rewrite Hb, view_fresh_after_exit by assumption.
    destruct (exec_call _ _ _) as [r|e]; simpl.
    + exists [CallProcessingFn (fst r)].
      split; [|right; eauto].
      destruct (pf (fst r)); simpl; now rewrite <- !app_assoc.
    + exists []. split; [|now left]. now rewrite <- !app_assoc.
Qed.

(** ** What a computation leaves of the tapes' parameters *)

Lemma keeps_bind (A B : Type) (P : nat -> Prop) (m : M A) (k : A -> M B) :
  keeps_parameters P m -> (forall a, keeps_parameters P (k a)) ->
  keeps_parameters P (bind m k).
Proof.
  intros Hm Hk s. unfold bind. specialize (Hm s).
  destruct (m s) as [[a|e] s1]; simpl in Hm; [|exact Hm].
  destruct Hm as [Hn Hp]. destruct (Hk a s1) as [Hn' Hp'].
  split; [lia|]. intros t Ht HP. rewrite Hp' by (auto; lia). now apply Hp.
Qed.

(** A step that leaves the tape store as it is. *)
Lemma keeps_same_tapes (A : Type) (P : nat -> Prop) (m : M A) :
  (forall s, tape_store (snd (m s)) = tape_store s /\
             tape_next (snd (m s)) = tape_next s) ->
  keeps_parameters P m.
Proof.
  intros H s. destruct (H s) as [Hst Hn]. rewrite Hst, Hn. split; auto.
Qed.

Lemma keeps_call_execute_fn P f tapes kw :
  keeps_parameters P (call_execute_fn f tapes kw).
Proof. apply keeps_same_tapes. intros s. split; reflexivity. Qed.

Lemma keeps_call_processing_fn P pf results :
  keeps_parameters P (call_processing_fn pf results).
Proof. apply keeps_same_tapes. intros s. split; reflexivity. Qed.

Lemma keeps_call_batch_vjp P tapes dy g reduction kw :
  keeps_parameters P (call_batch_vjp tapes dy g reduction kw).
Proof.
  intros s. unfold call_batch_vjp, bind, log. simpl.
  destruct (batch_vjp _ _ _ _ _) as [[new pf]|e]; simpl.
  - split; [lia|]. intros t Ht _. now rewrite alloc_store_old.
  - split; auto.
Qed.

Lemma update_all_other tapes : forall st t,
  ~ In t tapes -> update_all tapes st t = st t.
Proof.
  unfold update_all.
  induction tapes as [|t0 ts IH]; intros st t Hin; simpl; [reflexivity|].
  rewrite IH by (intros H; apply Hin; now right).
  apply upd_other. intros ->. apply Hin. now left.
Qed.

Lemma keeps_update_loop tapes :
  keeps_parameters (fun t => ~ In t tapes) (for_each update tapes).
Proof.
  intros s. rewrite for_each_update_run. simpl. split; [lia|].
  intros t _ Hin. now rewrite update_all_other.
Qed.

(** The scope of [Unwrap] turns a body that keeps the parameters of the
    tapes outside the batch into a computation that keeps them all. *)
Lemma keeps_with_Unwrap (A : Type) tapes (body : M A) :
  keeps_parameters (fun t => ~ In t tapes) body ->
  keeps_parameters (fun _ => True) (with_Unwrap tapes body).
Proof.
  intros Hb s. unfold with_Unwrap.
  pose proof (@unwrap_scope tapes (tape_store s)) as Hscope.
  pose proof (@unwrap_enter_other tapes (tape_store s)) as Hother.
  pose proof (unwrap_enter_saved tapes (tape_store s)) as Hsaved.
  destruct (unwrap_enter tapes (tape_store s)) as [saved st1]. simpl in *.
  specialize (Hb (set_tapes st1 s)).
  destruct (body (set_tapes st1 s)) as [r s2]. simpl in *.
  destruct Hb as [Hn Hp]. split; [exact Hn|]. intros t Ht _.
  destruct (in_dec Nat.eq_dec t tapes) as [Hin|Hin].
  - now apply Hscope.
  - rewrite unwrap_exit_other by now rewrite Hsaved.
    rewrite Hp by assumption. now rewrite Hother.
Qed.

Lemma execute_keeps_parameters tapes device f g kw n md s t :
  parameters (tape_store (snd (execute tapes device f g kw n md s)) t)
  = parameters (tape_store s t).
Proof.
  rewrite execute_run. cbv zeta.
  assert (H : parameters
                (unwrap_exit
                   (fst (unwrap_enter tapes (set_all_trainable tapes (tape_store s))))
                   (forward_store tapes (tape_store s)) t)
              = parameters (tape_store s t)).
  { destruct (in_dec Nat.eq_dec t tapes) as [Hin|Hin].
    - rewrite unwrap_scope by assumption. apply set_all_trainable_parameters.
    - rewrite unwrap_exit_other by now rewrite unwrap_enter_saved.
      unfold forward_store. rewrite unwrap_enter_other by assumption.
      apply set_all_trainable_parameters. }
  destruct (exec_call _ _ _); exact H.
Qed.

Lemma keeps_execute P tapes device f g kw n md :
  keeps_parameters P (execute tapes device f g kw n md).
Proof.
  intros s. split.
  - rewrite execute_run. cbv zeta. destruct (exec_call _ _ _); simpl; lia.
  - intros t _ _. apply execute_keeps_parameters.
Qed.

Ltac same_tapes :=
  apply keeps_same_tapes; intros ?; split; reflexivity.

Lemma keeps_grad_fn cl dy variables :
  keeps_parameters (fun _ => True) (grad_fn cl dy variables).
Proof.
  unfold grad_fn. apply keeps_bind; [same_tapes|].
  intros jacs. apply keeps_bind; [|intros vjps; same_tapes].
  destruct jacs; [|same_tapes].
  destruct (is_gradient_transform _).
  - destruct (Z.eqb _ _).
    + unfold vjp_depth_exhausted.
      apply keeps_bind.
      * apply keeps_with_Unwrap. apply keeps_bind.
        -- apply keeps_update_loop.
        -- intros _. apply keeps_call_batch_vjp.
      * intros b. apply keeps_bind; [apply keeps_call_execute_fn|].
        intros r. apply keeps_bind; [apply keeps_call_processing_fn|].
        intros vjps. same_tapes.
    + unfold vjp_recursive.
      apply keeps_bind; [apply keeps_call_batch_vjp|].
      intros b. apply keeps_bind; [apply keeps_execute|].
      intros node. apply keeps_call_processing_fn.
  - destruct (is_device_method _ _).
    + unfold vjp_device.
      apply keeps_bind; [|intros jacs; same_tapes].
      apply keeps_with_Unwrap. apply keeps_bind; [same_tapes|].
      intros jacs. apply keeps_bind; [same_tapes|intros _; same_tapes].
    + same_tapes.
Qed.

(** C5.  Unwrapping is scoped.  Whatever the execution function, the
    gradient function, [batch_vjp], [_update] and the processing function
    do, return or raise, every tape has after the forward pass the
    parameters it had before it, and every tape that existed before an
    invocation of the gradient closure has after it the parameters it had
    before it. *)
Theorem unwrap_is_scoped :
  (forall tapes device f g kw n md s t,
     parameters (tape_store (snd (execute tapes device f g kw n md s)) t)
     = parameters (tape_store s t)) /\
  (forall cl dy variables s t,
     t < tape_next s ->
     parameters (tape_store (snd (grad_fn cl dy variables s)) t)
     = parameters (tape_store s t)).
Proof.
  split.
  - intros. apply execute_keeps_parameters.
  - intros cl dy variables s t Ht.
    now apply (keeps_grad_fn cl dy variables s).
Qed.

(** ** Batches without trainable parameters *)





(** The trainable positions a tape of the batch holds after the forward
    pass. *)
Lemma forward_trainable tapes st t :
  In t tapes ->
  trainable_params
    (unwrap_exit (fst (unwrap_enter tapes (set_all_trainable tapes st)))
                 (forward_store tapes st) t)
  = get_trainable_indices (parameters (st t)).
Proof.
  intros Hin. rewrite unwrap_exit_trainable. unfold forward_store.
  now rewrite unwrap_enter_trainable, set_all_trainable_in.
Qed.


(** * Further properties of the executor *)

Lemma set_parameters_operations t params st t' :
  operations (set_parameters t params st t') = operations (st t').
Proof.
  unfold set_parameters. destruct (Nat.eq_dec t' t) as [->|H].
  - now rewrite upd_same.
  - now rewrite upd_other.
Qed.

Lemma unwrap_enter_operations tapes : forall st t,
  operations (snd (unwrap_enter tapes st) t) = operations (st t).
Proof.
  induction tapes as [|t0 ts IH]; intros st t; simpl; [reflexivity|].
  destruct (unwrap_enter ts _) as [saved st'] eqn:E. simpl.
  replace st' with (snd (unwrap_enter ts
                  (set_parameters t0 (map unwrap_param (parameters (st t0))) st)))
    by now rewrite E.
  now rewrite IH, set_parameters_operations.
Qed.

Lemma unwrap_exit_operations saved : forall st t,
  operations (unwrap_exit saved st t) = operations (st t).
Proof.
  induction saved as [|e saved IH]; intros st t; simpl; [reflexivity|].
  now rewrite set_parameters_operations.
Qed.

Lemma set_all_trainable_operations tapes : forall st t,
  operations (set_all_trainable tapes st t) = operations (st t).
Proof.
  unfold set_all_trainable.
  induction tapes as [|t0 ts IH]; intros st t; simpl; [reflexivity|].
  rewrite IH. unfold set_trainable_params.
  destruct (Nat.eq_dec t t0) as [->|H].
  - now rewrite upd_same.
  - now rewrite upd_other.
Qed.

(** The store the forward pass leaves behind. *)
Definition after_forward (tapes : list nat) (st : Store) : Store :=
  unwrap_exit (fst (unwrap_enter tapes (set_all_trainable tapes st)))
              (forward_store tapes st).

Lemma execute_store tapes device f g kw n md s :
  tape_store (snd (execute tapes device f g kw n md s))
  = after_forward tapes (tape_store s).
Proof.
  rewrite execute_run. cbv zeta. now destruct (exec_call _ _ _).
Qed.

(** X1.  The forward pass overwrites [trainable_params] of every tape of
    the batch with the positions of the parameters the autodiff framework
    tracks, and that write stays, also when the execution function raises.
    It changes nothing else: not the operations, not a tape outside the
    batch, and it creates no tape. *)
Theorem execute_sets_trainable_params tapes device f g kw n md s :
  let s' := snd (execute tapes device f g kw n md s) in
  (forall t, In t tapes ->
     trainable_params (tape_store s' t)
     = get_trainable_indices (parameters (tape_store s t))) /\
  (forall t, operations (tape_store s' t) = operations (tape_store s t)) /\
  (forall t, ~ In t tapes -> tape_store s' t = tape_store s t) /\
  tape_next s' = tape_next s.
Proof.
  intros s'. unfold s'. rewrite execute_store. unfold after_forward.
  split; [|split; [|split]].
  - intros t Hin. now apply forward_trainable.
  - intros t. rewrite unwrap_exit_operations. unfold forward_store.
    now rewrite unwrap_enter_operations, set_all_trainable_operations.
  - intros t Hin. rewrite unwrap_exit_other by now rewrite unwrap_enter_saved.
    unfold forward_store. rewrite unwrap_enter_other by assumption.
    now apply set_all_trainable_other.
  - rewrite execute_run. cbv zeta. now destruct (exec_call _ _ _).
Qed.

(** X2.  When the execution function raises on the forward pass, [execute]
    raises the same exception; no [jacs] variable comes into being, and the
    trace holds the call of the executor and the call of the execution
    function. *)
Theorem execute_backend_failure tapes device f g kw n md s e :
  exec_call f (forward_view tapes (tape_store s)) kw = Raise e ->
  exists s',
    execute tapes device f g kw n md s = (Raise e, s') /\
    jacs_store s' = jacs_store s /\
    jacs_next s' = jacs_next s /\
    trace s' = trace s ++ [CallExecute tapes device f g kw n md;
                           CallExecuteFn f (forward_view tapes (tape_store s)) kw].
Proof.
  intros H. rewrite execute_run. cbv zeta. unfold forward_view in H.
  rewrite H. eexists. split; [reflexivity|]. simpl. auto.
Qed.

Lemma compute_vjp_length d jac : length (compute_vjp d jac) = ncols (payload jac).
Proof. unfold compute_vjp. now rewrite length_map, length_seq. Qed.

Lemma contract_length jacs : forall dy,
  length (contract dy jacs)
  = list_sum (map (fun j => ncols (payload j)) (firstn (length dy) jacs)).
Proof.
  unfold contract.
  induction jacs as [|j js IH]; intros [|d dy]; simpl; try reflexivity.
  rewrite length_app, compute_vjp_length. f_equal. apply IH.
Qed.

Lemma combine_truncated (A B : Type) (l : list A) (l' : list B) :
  combine l l' = combine (firstn (length l') l) (firstn (length l) l').
Proof.
  revert l'. induction l as [|a l IH]; intros [|b l']; simpl; try reflexivity.
  now rewrite <- IH.
Qed.

(** X3.  The contraction pairs [dy] and the Jacobians with [zip]: when one
    of the two is longer, its surplus is dropped without an error.  The VJP
    vector has one entry per column of the Jacobians that found a [dy]. *)
Theorem grad_fn_zip_truncates cl dy variables s j js :
  jacs_store s (cl_jacs cl) = j :: js ->
  exists out,
    grad_fn cl dy variables s = (Ok out, s) /\
    vjps_of out
    = contract (firstn (length (j :: js)) dy) (firstn (length dy) (j :: js)) /\
    length (vjps_of out)
    = list_sum (map (fun x => ncols (payload x)) (firstn (length dy) (j :: js))).
Proof.
  intros H. rewrite (grad_fn_direct cl dy variables s H).
  eexists. split; [reflexivity|].
  assert (Hv : vjps_of (with_variables variables (contract dy (j :: js)))
               = contract dy (j :: js)) by now destruct variables.
  rewrite Hv. split; [|apply contract_length].
  unfold contract. f_equal. apply combine_truncated.
Qed.

Lemma shaped_sum jacs tapes :
  shaped jacs tapes ->
  list_sum (map (fun j => ncols (payload j)) jacs)
  = list_sum (map (fun t => length (trainable_params t)) tapes).
Proof.
  induction 1 as [|j t js ts Hjt _ IH]; simpl; [reflexivity|].
  now rewrite Hjt, IH.
Qed.

(** X4.  Forward and backward agree on the shape.  When the execution
    function returns Jacobians with one column per trainable parameter, one
    per tape of a non-empty batch, and [dy] has one entry per tape, the VJP
    vector that the closure returns has as many entries as the parameter
    vector that entered the differentiation graph. *)
Theorem vjp_matches_parameter_vector tapes device f g kw n md s res jacs dy :
  tapes <> [] ->
  exec_call f (forward_view tapes (tape_store s)) kw = Ok (res, jacs) ->
  shaped jacs (forward_view tapes (tape_store s)) ->
  length dy = length tapes ->
  exists node s1,
    execute tapes device f g kw n md s = (Ok node, s1) /\
    forall variables,
      exists out,
        grad_fn (node_grad node) dy variables s1 = (Ok out, s1) /\
        length (vjps_of out) = length (node_inputs node).
Proof.
  intros Hne Hex Hsh Hdy. rewrite execute_run. cbv zeta.
  pose proof Hex as Hex'. unfold forward_view in Hex'. rewrite Hex'.
  eexists. eexists. split; [reflexivity|]. intros variables. simpl.
  pose proof (Forall2_length Hsh) as Hlen.
  unfold forward_view, view in Hlen. rewrite length_map in Hlen.
  destruct jacs as [|j js].
  { destruct tapes; [congruence|discriminate]. }
  erewrite grad_fn_direct by (simpl; rewrite upd_same; reflexivity).
  eexists. split; [reflexivity|].
  change (convert_to_tensor j :: map convert_to_tensor js)
    with (map (@convert_to_tensor Matrix) (j :: js)).
  assert (Hv : forall v, vjps_of (with_variables variables v) = v)
    by (intros v; now destruct variables).
  rewrite Hv, contract_length, firstn_all2 by (rewrite length_map; lia).
  rewrite map_map.
  change (list_sum (map (fun x : Jac => ncols (payload x)) (j :: js))
          = length (flat_map
                      (fun t => get_parameters
                                  (set_all_trainable tapes (tape_store s) t))
                      tapes)).
  etransitivity; [exact (shaped_sum Hsh)|].
  rewrite collect_after_trainable, length_flat_map.
  unfold forward_view, view. rewrite map_map. f_equal.
  apply map_ext_in. intros t Hin. unfold forward_store.
  rewrite unwrap_enter_trainable, set_all_trainable_in by assumption.
  apply trainable_from_length.
Qed.

Lemma recursive_branch_calls cl dy variables s new pf :
  jacs_store s (cl_jacs cl) = [] ->
  is_gradient_transform (cl_gradient_fn cl) = true ->
  cl_n cl <> cl_max_diff cl ->
  batch_vjp (view (cl_tapes cl) (tape_store s)) dy (cl_gradient_fn cl) "extend"
            (cl_gradient_kwargs cl) = Ok (new, pf) ->
  let s0 := mkState (tape_store s) (tape_next s) (jacs_store s) (jacs_next s)
              (trace s ++ [CallBatchVjp (view (cl_tapes cl) (tape_store s)) dy
                             (cl_gradient_fn cl) "extend" (cl_gradient_kwargs cl)]) in
  executor_calls (trace (snd (grad_fn cl dy variables s)))
  = executor_calls (trace s)
    ++ [CallExecute (fst (alloc_tapes new s0)) (cl_device cl) (cl_execute_fn cl)
                    (cl_gradient_fn cl) (cl_gradient_kwargs cl) (cl_n cl + 1)
                    (cl_max_diff cl)].
Proof.
  intros Hj Ht Hn Hb s0.
  rewrite grad_fn_recursive_run by assumption. cbv zeta. rewrite Hb.
  fold s0. unfold bind. rewrite execute_run. cbv zeta.
  destruct (exec_call _ _ _) as [r|e]; simpl.
  - unfold call_processing_fn, bind, log, ret. simpl.
    destruct (pf _) as [out|e]; simpl;
      rewrite !executor_calls_app; simpl; now rewrite !app_nil_r.
  - rewrite !executor_calls_app. simpl. now rewrite !app_nil_r.
Qed.

(** X5.  The depth limit is an equality test.  When [_n] is already above
    [max_diff], the closure does not take the branch without recursion: it
    calls the executor with [_n + 1], and the closure that call registers
    is above [max_diff] again. *)
Theorem grad_fn_recursion_beyond_max_diff cl dy variables s new pf :
  jacs_store s (cl_jacs cl) = [] ->
  is_gradient_transform (cl_gradient_fn cl) = true ->
  (cl_max_diff cl < cl_n cl)%Z ->
  batch_vjp (view (cl_tapes cl) (tape_store s)) dy (cl_gradient_fn cl) "extend"
            (cl_gradient_kwargs cl) = Ok (new, pf) ->
  let s0 := mkState (tape_store s) (tape_next s) (jacs_store s) (jacs_next s)
              (trace s ++ [CallBatchVjp (view (cl_tapes cl) (tape_store s)) dy
                             (cl_gradient_fn cl) "extend" (cl_gradient_kwargs cl)]) in
  let vjp_tapes := fst (alloc_tapes new s0) in
  executor_calls (trace (snd (grad_fn cl dy variables s)))
  = executor_calls (trace s)
    ++ [CallExecute vjp_tapes (cl_device cl) (cl_execute_fn cl) (cl_gradient_fn cl)
                    (cl_gradient_kwargs cl) (cl_n cl + 1) (cl_max_diff cl)] /\
  forall node s2,
    execute vjp_tapes (cl_device cl) (cl_execute_fn cl) (cl_gradient_fn cl)
            (cl_gradient_kwargs cl) (cl_n cl + 1) (cl_max_diff cl)
            (snd (alloc_tapes new s0)) = (Ok node, s2) ->
    (cl_max_diff (node_grad node) < cl_n (node_grad node))%Z.
Proof.
  intros Hj Ht Hn Hb s0 vjp_tapes. split.
  - eapply recursive_branch_calls; eauto. lia.
  - intros node s2. rewrite execute_run. cbv zeta.
    destruct (exec_call _ _ _) as [r|e]; [|discriminate].
    intros H. inversion H; subst. simpl. lia.
Qed.

(** X6.  The branch of the device method keeps what the gradient function
    returned even when that is an empty list, and keeps nothing when the
    gradient function raises: in both cases [jacs] is still empty after the
    invocation, and the next invocation calls the gradient function
    again. *)
Theorem grad_fn_device_called_again cl dy variables s :
  jacs_store s (cl_jacs cl) = [] ->
  is_gradient_transform (cl_gradient_fn cl) = false ->
  is_device_method (cl_gradient_fn cl) (cl_device cl) = true ->
  gf_call (cl_gradient_fn cl)
          (view (cl_tapes cl) (snd (unwrap_enter (cl_tapes cl) (tape_store s))))
          (cl_gradient_kwargs cl) = Ok [] \/
  (exists e,
     gf_call (cl_gradient_fn cl)
             (view (cl_tapes cl) (snd (unwrap_enter (cl_tapes cl) (tape_store s))))
             (cl_gradient_kwargs cl) = Raise e) ->
  let s' := snd (grad_fn cl dy variables s) in
  jacs_store s' (cl_jacs cl) = [] /\
  forall dy2 variables2,
    exists v,
      trace (snd (grad_fn cl dy2 variables2 s'))
      = trace s' ++ [CallGradientFn (cl_gradient_fn cl) v (cl_gradient_kwargs cl)].
Proof.
  intros Hj Ht Hd Hg s'.
  assert (Hcell : jacs_store s' (cl_jacs cl) = []).
  { unfold s'. rewrite grad_fn_device_run by assumption. cbv zeta.
    destruct Hg as [Hg|[e Hg]]; rewrite Hg; simpl; [apply upd_same|exact Hj]. }
  split; [exact Hcell|]. intros dy2 variables2. clear Hg.
  rewrite grad_fn_device_run by assumption. cbv zeta.
  eexists. destruct (gf_call _ _ _); reflexivity.
Qed.

(** X7.  The branches of a gradient transform never write [jacs]: after an
    invocation through either of them the variable is still empty, whatever
    the calls returned or raised, and the next invocation adds a call of
    [batch_vjp] to the trace, after at most the [_update] calls of the
    branch [_n = max_diff]. *)
Theorem grad_fn_transform_not_cached cl dy variables s :
  cl_jacs cl < jacs_next s ->
  jacs_store s (cl_jacs cl) = [] ->
  is_gradient_transform (cl_gradient_fn cl) = true ->
  let s' := snd (grad_fn cl dy variables s) in
  jacs_store s' (cl_jacs cl) = [] /\
  forall dy2 variables2,
    exists updates v rest,
      trace (snd (grad_fn cl dy2 variables2 s'))
      = trace s' ++ updates
        ++ CallBatchVjp v dy2 (cl_gradient_fn cl) "extend" (cl_gradient_kwargs cl)
           :: rest /\
      (updates = [] \/ updates = map CallUpdate (cl_tapes cl)).
Proof.
  intros Hc Hj Ht s'.
  assert (Hcalls : forall s0 dy0 v0,
            jacs_store s0 (cl_jacs cl) = [] ->
            exists updates v rest,
              trace (snd (grad_fn cl dy0 v0 s0))
              = trace s0 ++ updates
                ++ CallBatchVjp v dy0 (cl_gradient_fn cl) "extend"
                                (cl_gradient_kwargs cl) :: rest /\
              (updates = [] \/ updates = map CallUpdate (cl_tapes cl))).
  { intros s0 dy0 v0 Hj0.
    destruct (Z.eq_dec (cl_n cl) (cl_max_diff cl)) as [Hn|Hn].
    - rewrite grad_fn_depth_exhausted_run by assumption. cbv zeta.
      exists (map CallUpdate (cl_tapes cl)). eexists.
      destruct (batch_vjp _ _ _ _ _) as [[new pf]|e]; simpl.
      + destruct (exec_call _ _ _) as [r|e]; simpl;
          [destruct (pf (fst r)); simpl|];
          eexists; (split; [|now right]);
          rewrite <- !app_assoc; simpl; reflexivity.
      + exists []. split; [|now right]. reflexivity.
    - rewrite grad_fn_recursive_run by assumption. cbv zeta.
      exists []. eexists.
      destruct (batch_vjp _ _ _ _ _) as [[new pf]|e]; simpl.
      + unfold bind. rewrite execute_run. cbv zeta.
        destruct (exec_call _ _ _) as [r|e]; simpl.
        * unfold call_processing_fn, bind, log, ret. simpl.
          destruct (pf _); simpl; eexists; (split; [|now left]);
            rewrite <- !app_assoc; simpl; reflexivity.
        * eexists. split; [|now left]. rewrite <- !app_assoc. reflexivity.
      + exists []. split; [|now left]. reflexivity. }
  assert (Hcell : jacs_store s' (cl_jacs cl) = []).
  { unfold s'.
    destruct (Z.eq_dec (cl_n cl) (cl_max_diff cl)) as [Hn|Hn].
    - rewrite grad_fn_depth_exhausted_run by assumption. cbv zeta.
      destruct (batch_vjp _ _ _ _ _) as [[new pf]|e]; simpl; [|exact Hj].
      destruct (exec_call _ _ _) as [r|e]; simpl; [|exact Hj].
      destruct (pf (fst r)); exact Hj.
    - rewrite grad_fn_recursive_run by assumption. cbv zeta.
      destruct (batch_vjp _ _ _ _ _) as [[new pf]|e]; simpl; [|exact Hj].
      unfold bind. rewrite execute_run. cbv zeta.
      destruct (exec_call _ _ _) as [r|e]; simpl; [|exact Hj].
      unfold call_processing_fn, bind, log, ret. simpl.
      destruct (pf _); simpl; rewrite upd_other by lia; exact Hj. }
  split; [exact Hcell|]. intros dy2 variables2. now apply Hcalls.
Qed.

End Executor.

Arguments Ok {backend_error A} a.
Arguments Raise {backend_error A} e.
Arguments ValueError {backend_error} msg.
Arguments Vjps {num tfvar} vjps.
Arguments CallProcessingFn {num param circuit kwval backend_error} results.
Arguments CallUpdate {num param circuit kwval backend_error} tape.

(** * A concrete world

    Integers for the numeric entries, a parameter as a pair of "is tracked
    by the autodiff framework" and a value, a device with identity [9], and
    a two-tape store: tape [0] has two trainable parameters, tape [1] has
    none. *)

Module Demo.

Definition dparam : Type := bool * Z.

Definition unwrap (p : dparam) : dparam := (false, snd p).

Definition tape : Type := TapeState dparam nat.

(** A stand-in for [tape._update()]: it marks every position trainable. *)
Definition refresh (t : tape) : tape :=
  mkTape (operations t) (parameters t) (seq 0 (length (parameters t))).

Definition value_sum (t : tape) : Z :=
  fold_right Z.add 0%Z (map snd (parameters t)).

(** One row, one column per trainable position. *)
Definition jacobian_of (t : tape) : Jac Z :=
  mkArr Numpy
    (mkMatrix (length (trainable_params t))
       [map (fun i => (2 * snd (nth i (parameters t) (false, 0)))%Z)
            (trainable_params t)]).

Definition results_of (v : list tape) : list (Res Z) :=
  map (fun t => mkArr Numpy [value_sum t]) v.

(** A backend that supplies Jacobians on the forward pass. *)
Definition exec_forward : ExecuteFn Z dparam nat Z string :=
  mkExecuteFn (fun v _ => Ok (results_of v, map jacobian_of v)).

(** A backend that leaves the Jacobians to the backward pass. *)
Definition exec_backward : ExecuteFn Z dparam nat Z string :=
  mkExecuteFn (fun v _ => Ok (results_of v, [])).

(** A backend that fails. *)
Definition exec_failing : ExecuteFn Z dparam nat Z string :=
  mkExecuteFn (fun _ _ => Raise (BackendError "device lost")).

Definition device : nat := 9.

Definition g_transform : GradientFn Z dparam nat Z string :=
  mkGradientFn (Some "pennylane.gradients.parameter_shift") None
    (fun _ _ => Raise (BackendError "not a device method")).

Definition g_device : GradientFn Z dparam nat Z string :=
  mkGradientFn (Some "pennylane.interfaces.batch.batch") (Some (BoundMethod 9))
    (fun v _ => Ok (map jacobian_of v)).

Definition g_device_failing : GradientFn Z dparam nat Z string :=
  mkGradientFn (Some "pennylane.interfaces.batch.batch") (Some (BoundMethod 9))
    (fun _ _ => Raise (BackendError "device lost")).

(** A wrapper of a method of another object. *)
Definition g_unknown : GradientFn Z dparam nat Z string :=
  mkGradientFn (Some "numpy") (Some (BoundMethod 8))
    (fun v _ => Ok (map jacobian_of v)).

(** A stand-in for [batch_vjp]: one VJP tape per tape, and a processing
    function that sums each result. *)
Definition bvjp (v : list tape) (dy : list (Res Z))
    (g : GradientFn Z dparam nat Z string) (reduction : string) (kw : Kwargs Z)
  : Outcome string (list tape * ProcessingFn Z string) :=
  Ok
     (map (fun t => mkTape (operations t + 100) (parameters t) []) v,
      fun results =>
        Ok (map (fun r => mkArr Numpy (fold_right Z.add 0%Z (payload r)))
                       results)).

Definition kw : Kwargs Z := [("h", 7%Z)].

Definition tape0 : tape := mkTape 1 [(true, 3%Z); (true, 4%Z)] [0; 1].
Definition tape1 : tape := mkTape 2 [(false, 5%Z)] [].

Definition store0 : Store dparam nat :=
  fun t => match t with
           | 0 => tape0
           | 1 => tape1
           | _ => mkTape 0 [] []
           end.

Definition s0 : State Z dparam nat Z string :=
  mkState store0 2 (fun _ => []) 0 [].

Definition dy1 : list (Res Z) := [mkArr TensorFlow [1%Z]].

(** The executor and the closure in this world. *)
Definition run_execute :=
  @execute Z dparam fst unwrap nat Z string.

Definition run_grad_fn :=
  @grad_fn Z 0%Z Z.add Z.mul dparam fst unwrap nat Z nat string refresh bvjp.

(** A closure whose forward pass left no Jacobians, by gradient function
    and nesting. *)
Definition closure (g : GradientFn Z dparam nat Z string) (n md : Z)
  : Closure Z dparam nat Z string :=
  mkClosure 0 [0] device exec_backward g kw n md.

Definition run_invoke_all :=
  @invoke_all Z 0%Z Z.add Z.mul dparam fst unwrap nat Z nat string refresh bvjp.

Definition tensor {A : Type} (a : A) : Arr A := mkArr TensorFlow a.

(** The VJP tape that [bvjp] builds from tape [0], wrapped and unwrapped. *)
Definition vjp_tape0 : tape := mkTape 101 [(true, 3%Z); (true, 4%Z)] [].
Definition vjp_tape0_unwrapped : tape :=
  mkTape 101 [(false, 3%Z); (false, 4%Z)] [].

Definition sum_results : ProcessingFn Z string :=
  fun results =>
    Ok (map (fun r => mkArr Numpy (fold_right Z.add 0%Z (payload r))) results).

(** ** The branch tests on the gradient functions of this world *)

Example transform_is_recognized :
  is_gradient_transform g_transform = true /\
  is_gradient_transform g_device = false /\
  is_gradient_transform g_unknown = false.
Proof. repeat split; reflexivity. Qed.

Example device_method_is_recognized :
  is_device_method g_device device = true /\
  is_device_method g_transform device = false /\
  is_device_method g_unknown device = false.
Proof. repeat split; reflexivity. Qed.

Example compute_vjp_row :
  compute_vjp 0%Z Z.add Z.mul (tensor [2%Z; 1%Z])
    (mkArr Numpy (mkMatrix 2 [[6%Z; 8%Z]; [1%Z; 3%Z]]))
  = [tensor 13%Z; tensor 19%Z].
Proof. reflexivity. Qed.

(** ** The theorems at work *)

(** The scenario of the specification: one tape, two trainable parameters,
    a backend that returns the Jacobian, [dy = [1]]. *)
Lemma grad_fn_forward_jacobians_witness :
  exists node s1,
    run_execute [0] device exec_forward g_transform kw 1 2 s0 = (Ok node, s1) /\
    fst (run_grad_fn (node_grad node) dy1 None s1)
    = Ok (Vjps [tensor 6%Z; tensor 8%Z]).
Proof.
  destruct (@grad_fn_forward_jacobians Z 0%Z Z.add Z.mul dparam fst unwrap
              nat Z nat string refresh bvjp [0] device exec_forward g_transform
              kw 1%Z 2%Z s0
              [mkArr Numpy [7%Z]] [mkArr Numpy (mkMatrix 2 [[6%Z; 8%Z]])])
    as [node [s1 [H1 H2]]]; [reflexivity | discriminate |].
  exists node, s1. split; [exact H1|].
  unfold run_grad_fn. rewrite H2. reflexivity.
Defined.

Lemma grad_fn_recursive_call_witness :
  fst (run_grad_fn (closure g_transform 1 2) dy1 None s0)
  = Ok (Vjps [mkArr Numpy 7%Z]) /\
  executor_calls (trace (snd (run_grad_fn (closure g_transform 1 2) dy1 None s0)))
  = [CallExecute [2] device exec_backward g_transform kw 2 2].
Proof.
  pose proof (@grad_fn_recursive_call Z 0%Z Z.add Z.mul dparam fst unwrap nat Z
                nat string refresh bvjp (closure g_transform 1 2) dy1 None s0
                [vjp_tape0] sum_results eq_refl eq_refl ltac:(simpl; lia) eq_refl)
    as H.
  cbv zeta in H. destruct H as [_ [_ [Hcalls Hres]]].
  split; [|exact Hcalls].
  edestruct Hres as [Hok _]; [rewrite execute_run; reflexivity|].
  unfold run_grad_fn. erewrite Hok; reflexivity.
Defined.

Lemma grad_fn_depth_exhausted_witness :
  fst (run_grad_fn (closure g_transform 2 2) dy1 None s0)
  = Ok (Vjps [tensor 7%Z]) /\
  executor_calls (trace (snd (run_grad_fn (closure g_transform 2 2) dy1 None s0)))
  = [].
Proof.
  destruct (@grad_fn_depth_exhausted Z 0%Z Z.add Z.mul dparam fst unwrap nat Z
              nat string refresh bvjp (closure g_transform 2 2) dy1 None s0
              [vjp_tape0_unwrapped] sum_results [mkArr Numpy [7%Z]] []
              [mkArr Numpy 7%Z])
    as [s' [H1 [_ H3]]].
  - reflexivity.
  - reflexivity.
  - reflexivity.
  - repeat constructor.
  - reflexivity.
  - reflexivity.
  - reflexivity.
  - unfold run_grad_fn. rewrite H1. split; [reflexivity | exact H3].
Defined.

Lemma grad_fn_unknown_gradient_function_witness :
  run_grad_fn (closure g_unknown 1 2) dy1 None s0
  = (Raise (ValueError "Unknown gradient function."), s0).
Proof.
  apply (@grad_fn_unknown_gradient_function Z 0%Z Z.add Z.mul dparam fst unwrap
           nat Z nat string refresh bvjp (closure g_unknown 1 2) dy1 None s0);
    reflexivity.
Defined.

(** A backend that raises on the forward pass, and a device method that
    raises on the backward pass: the parameters of tape [0] are the wrapped
    ones afterwards. *)
Lemma unwrap_is_scoped_witness :
  fst (run_execute [0; 1; 0] device exec_failing g_transform kw 1 2 s0)
  = Raise (BackendError "device lost") /\
  parameters
    (tape_store (snd (run_execute [0; 1; 0] device exec_failing g_transform
                                  kw 1 2 s0)) 0)
  = [(true, 3%Z); (true, 4%Z)] /\
  fst (run_grad_fn (closure g_device_failing 1 2) dy1 None s0)
  = Raise (BackendError "device lost") /\
  parameters
    (tape_store (snd (run_grad_fn (closure g_device_failing 1 2) dy1 None s0)) 0)
  = [(true, 3%Z); (true, 4%Z)].
Proof.
  split; [reflexivity|]. split.
  - exact (proj1 (@unwrap_is_scoped Z 0%Z Z.add Z.mul dparam fst unwrap nat Z
                    nat string refresh bvjp)
                 [0; 1; 0] device exec_failing g_transform kw 1%Z 2%Z s0 0).
  - split; [reflexivity|].
    refine (proj2 (@unwrap_is_scoped Z 0%Z Z.add Z.mul dparam fst unwrap nat Z
                     nat string refresh bvjp)
                  (closure g_device_failing 1 2) dy1 None s0 0 _).
    simpl. lia.
Defined.

Definition dy2 : list (Res Z) := [mkArr TensorFlow [2%Z]].

Lemma grad_fn_device_method_witness :
  fst (run_grad_fn (closure g_device 1 2) dy2 None s0)
  = Ok (Vjps [tensor 12%Z; tensor 16%Z]).
Proof.
  destruct (@grad_fn_device_method Z 0%Z Z.add Z.mul dparam fst unwrap nat Z
              nat string refresh bvjp (closure g_device 1 2) dy2 None s0
              [mkArr Numpy (mkMatrix 2 [[6%Z; 8%Z]])])
    as [_ [s' [H1 _]]].
  - reflexivity.
  - reflexivity.
  - reflexivity.
  - reflexivity.
  - unfold run_grad_fn. rewrite H1. reflexivity.
Defined.

Lemma grad_fn_device_jacobians_kept_witness :
  let s' := snd (run_grad_fn (closure g_device 1 2) dy1 None s0) in
  run_invoke_all (closure g_device 1 2) [(dy1, None); (dy2, Some [4])] s'
  = (Ok [Vjps [tensor 6%Z; tensor 8%Z];
         VjpsWithVariables [tensor 12%Z; tensor 16%Z] [4]], s').
Proof.
  intros s'.
  exact (proj2
    (@grad_fn_device_jacobians_kept Z 0%Z Z.add Z.mul dparam fst unwrap nat Z
       nat string refresh bvjp (closure g_device 1 2) dy1 None s0
       [mkArr Numpy (mkMatrix 2 [[6%Z; 8%Z]])]
       eq_refl eq_refl eq_refl eq_refl ltac:(discriminate))
    [(dy1, None); (dy2, Some [4])]).
Defined.

(** A device method that returns no Jacobian: [jacs] is empty after the
    first invocation, and the second invocation calls the method again. *)
Definition g_device_empty : GradientFn Z dparam nat Z string :=
  mkGradientFn (Some "pennylane.interfaces.batch.batch") (Some (BoundMethod 9))
    (fun _ _ => Ok []).

Lemma device_method_called_on_every_invocation :
  let cl := closure g_device_empty 1 2 in
  let s1 := snd (run_grad_fn cl dy1 None s0) in
  fst (run_grad_fn cl dy1 None s0) = Ok (Vjps []) /\
  trace s1 = [CallGradientFn g_device_empty [mkTape 1 [(false, 3%Z); (false, 4%Z)] [0; 1]] kw] /\
  jacs_store s1 0 = [] /\
  trace (snd (run_grad_fn cl dy1 None s1))
  = trace s1
    ++ [CallGradientFn g_device_empty [mkTape 1 [(false, 3%Z); (false, 4%Z)] [0; 1]] kw].
Proof.
  intros cl s1. unfold s1, cl, run_grad_fn.
  rewrite !grad_fn_device_run by reflexivity.
  repeat split; reflexivity.
Qed.

Lemma execute_results_and_parameters_witness :
  exists node s1,
    run_execute [0; 1] device exec_forward g_transform kw 1 2 s0 = (Ok node, s1) /\
    node_outputs node = [tensor [7%Z]; tensor [5%Z]] /\
    node_inputs node = [(true, 3%Z); (true, 4%Z)] /\
    trainable_count [0; 1] (tape_store s1) = 2.
Proof.
  destruct (@execute_results_and_parameters Z dparam fst unwrap nat Z string
              [0; 1] device exec_forward g_transform kw 1%Z 2%Z s0
              [mkArr Numpy [7%Z]; mkArr Numpy [5%Z]]
              [mkArr Numpy (mkMatrix 2 [[6%Z; 8%Z]]);
               mkArr Numpy (mkMatrix 0 [[]])])
    as [node [s1 [H1 [H2 [_ [_ [H5 H6]]]]]]]; [reflexivity |].
  exists node, s1. split; [exact H1|]. split; [exact H2|].
  split; [exact H5|]. rewrite <- H6, H5. reflexivity.
Defined.

(** A backend that returns no result for a batch of two tapes: the forward
    pass returns no result either. *)
Definition exec_silent : ExecuteFn Z dparam nat Z string :=
  mkExecuteFn (fun _ _ => Ok ([], [])).

Lemma results_follow_the_backend :
  exists node s1,
    run_execute [0; 1] device exec_silent g_transform kw 1 2 s0 = (Ok node, s1) /\
    node_outputs node = [] /\
    length (node_outputs node) <> length [0; 1].
Proof.
  eexists. eexists. split.
  { unfold run_execute. rewrite execute_run. reflexivity. }
  split; [reflexivity | discriminate].
Qed.

Lemma execute_fn_keyword_options_witness :
  In (CallExecuteFn exec_backward [vjp_tape0_unwrapped] [])
     (trace (snd (run_grad_fn (closure g_transform 2 2) dy1 None s0))).
Proof.
  destruct (proj2 (@execute_fn_keyword_options Z 0%Z Z.add Z.mul dparam fst
                     unwrap nat Z nat string refresh bvjp)
                  (closure g_transform 2 2) dy1 None s0
                  [vjp_tape0_unwrapped] sum_results)
    as [tail [H _]].
  - reflexivity.
  - reflexivity.
  - reflexivity.
  - repeat constructor.
  - reflexivity.
  - unfold run_grad_fn. rewrite H. simpl. right. right. left. reflexivity.
Defined.


(** ** Where the round trip of the empty parameter vector fails *)



(** ** The further properties at work *)

(** A store in which [trainable_params] of tape [0] is out of date. *)
Definition s_stale : State Z dparam nat Z string :=
  mkState (fun t => match t with
                    | 0 => mkTape 1 [(true, 3%Z); (true, 4%Z)] []
                    | _ => store0 t
                    end) 2 (fun _ => []) 0 [].

(** A state in which the closure's [jacs] exists, empty or with two
    Jacobians. *)
Definition s_live : State Z dparam nat Z string :=
  mkState store0 2 (fun _ => []) 1 [].

Definition s_two_jacobians : State Z dparam nat Z string :=
  mkState store0 2
    (fun _ => [tensor (mkMatrix 2 [[6%Z; 8%Z]]); tensor (mkMatrix 1 [[9%Z]])])
    1 [].

Lemma execute_sets_trainable_params_witness :
  trainable_params
    (tape_store (snd (run_execute [0] device exec_failing g_transform kw 1 2
                                  s_stale)) 0) = [0; 1] /\
  tape_store (snd (run_execute [0] device exec_failing g_transform kw 1 2
                               s_stale)) 1 = tape1.
Proof.
  destruct (@execute_sets_trainable_params Z dparam fst unwrap nat Z string
              [0] device exec_failing g_transform kw 1%Z 2%Z s_stale)
    as [H1 [_ [H3 _]]].
  split.
  - unfold run_execute. rewrite (H1 0); [reflexivity | now left].
  - unfold run_execute. rewrite (H3 1); [reflexivity|].
    intros [H|[]]. discriminate H.
Defined.

Lemma execute_backend_failure_witness :
  exists s',
    run_execute [0] device exec_failing g_transform kw 1 2 s0
    = (Raise (BackendError "device lost"), s') /\
    jacs_next s' = 0.
Proof.
  destruct (@execute_backend_failure Z dparam fst unwrap nat Z string
              [0] device exec_failing g_transform kw 1%Z 2%Z s0
              (BackendError "device lost") eq_refl)
    as [s' [H1 [_ [H3 _]]]].
  exists s'. split; [exact H1 | exact H3].
Defined.

(** Two Jacobians and one [dy]: the second Jacobian is left out. *)
Lemma grad_fn_zip_truncates_witness :
  fst (run_grad_fn (closure g_transform 1 2) dy1 None s_two_jacobians)
  = Ok (Vjps [tensor 6%Z; tensor 8%Z]).
Proof.
  destruct (@grad_fn_zip_truncates Z 0%Z Z.add Z.mul dparam fst unwrap nat Z
              nat string refresh bvjp (closure g_transform 1 2) dy1 None
              s_two_jacobians
              (tensor (mkMatrix 2 [[6%Z; 8%Z]])) [tensor (mkMatrix 1 [[9%Z]])]
              eq_refl)
    as [out [H1 [H2 _]]].
  unfold run_grad_fn. rewrite H1. simpl. destruct out; simpl in H2; now subst.
Defined.

Lemma vjp_matches_parameter_vector_witness :
  exists node s1,
    run_execute [0; 1] device exec_forward g_transform kw 1 2 s0 = (Ok node, s1) /\
    exists out,
      run_grad_fn (node_grad node) (dy1 ++ dy1) None s1 = (Ok out, s1) /\
      length (vjps_of out) = length (node_inputs node).
Proof.
  destruct (@vjp_matches_parameter_vector Z 0%Z Z.add Z.mul dparam fst unwrap
              nat Z nat string refresh bvjp [0; 1] device exec_forward
              g_transform kw 1%Z 2%Z s0
              [mkArr Numpy [7%Z]; mkArr Numpy [5%Z]]
              [mkArr Numpy (mkMatrix 2 [[6%Z; 8%Z]]);
               mkArr Numpy (mkMatrix 0 [[]])]
              (dy1 ++ dy1))
    as [node [s1 [H1 H2]]].
  - discriminate.
  - reflexivity.
  - repeat constructor.
  - reflexivity.
  - exists node, s1. split; [exact H1 | exact (H2 None)].
Defined.

Lemma grad_fn_recursion_beyond_max_diff_witness :
  executor_calls (trace (snd (run_grad_fn (closure g_transform 3 2) dy1 None s0)))
  = [CallExecute [2] device exec_backward g_transform kw 4 2].
Proof.
  refine (proj1
    (@grad_fn_recursion_beyond_max_diff Z 0%Z Z.add Z.mul dparam fst unwrap nat
       Z nat string refresh bvjp (closure g_transform 3 2) dy1 None s0
       [vjp_tape0] sum_results _ _ _ _)).
  - reflexivity.
  - reflexivity.
  - simpl. lia.
  - reflexivity.
Defined.

Lemma grad_fn_device_called_again_witness :
  let s' := snd (run_grad_fn (closure g_device_failing 1 2) dy1 None s0) in
  jacs_store s' 0 = [] /\
  length (trace (snd (run_grad_fn (closure g_device_failing 1 2) dy1 None s'))) = 2.
Proof.
  intros s'.
  destruct (@grad_fn_device_called_again Z 0%Z Z.add Z.mul dparam fst unwrap
              nat Z nat string refresh bvjp (closure g_device_failing 1 2)
              dy1 None s0 eq_refl eq_refl eq_refl)
    as [H1 H2].
  - right. eexists. reflexivity.
  - split; [exact H1|]. destruct (H2 dy1 None) as [v Hv].
    unfold s', run_grad_fn. rewrite Hv, length_app. reflexivity.
Defined.

Lemma grad_fn_transform_not_cached_witness :
  let s' := snd (run_grad_fn (closure g_transform 2 2) dy1 None s_live) in
  jacs_store s' 0 = [] /\
  exists updates v rest,
    trace (snd (run_grad_fn (closure g_transform 2 2) dy2 None s'))
    = trace s' ++ updates
      ++ CallBatchVjp v dy2 g_transform "extend" kw :: rest /\
    (updates = [] \/ updates = [CallUpdate 0]).
Proof.
  intros s'.
  destruct (@grad_fn_transform_not_cached Z 0%Z Z.add Z.mul dparam fst unwrap
              nat Z nat string refresh bvjp (closure g_transform 2 2) dy1 None
              s_live ltac:(simpl; lia) eq_refl eq_refl) as [Hcell Hnext].
  split; [exact Hcell|]. exact (Hnext dy2 None).
Defined.

End Demo.

(** * The circuit drawer

    A shallow embedding of [pennylane/circuit_drawer/mpldrawer.py].  The
    drawer owns a Matplotlib axes object; what the embedding keeps of it is
    the list of the calls made on it, in order, with their arguments.
    Coordinates are computed in Python's floating point, so they are
    carried in an abstract carrier with the arithmetic the source writes
    out and no law; wires are integers, as the docstrings say.  [measure]
    is left out: it draws through [plt.arrow], on whatever axes pyplot
    holds as the current one. *)

Module Drawer.

Inductive PyExn : Type :=
| ValueError (msg : string)
| IndexError (msg : string)
| TypeError (msg : string)
| MplError (msg : string).            (* raised inside Matplotlib *)

(** Python's [min] and [max] on a tuple of integers; [None] stands for the
    [ValueError] on an empty tuple. *)
Definition py_min (l : list Z) : option Z :=
  match l with
  | [] => None
  | x :: xs => Some (fold_left (fun m y => if (y <? m)%Z then y else m) xs x)
  end.

Definition py_max (l : list Z) : option Z :=
  match l with
  | [] => None
  | x :: xs => Some (fold_left (fun m y => if (m <? y)%Z then y else m) xs x)
  end.

(** The argument of [_to_tuple]: [None], an integer or an iterable. *)
Inductive WireArg : Type :=
| WNone
| WInt (w : Z)
| WIter (ws : list Z).

Definition _to_tuple (a : WireArg) : list Z :=
  match a with
  | WNone => []
  | WIter ws => ws
  | WInt w => [w]
  end.

Section Drawer.

(** Numbers as Python computes them, with the injection of the integers,
    the float a literal of the source denotes, and the four operations. *)
Variable num : Type.
Variable of_Z : Z -> num.
Variable float : string -> num.
Variables nadd nsub nmul ndiv : num -> num -> num.

(** Colours, and the values of keyword dictionaries other than strings. *)
Variable color : Type.
Variable obj : Type.

Inductive val : Type :=
| VStr (s : string)
| VColor (c : option color)
| VObj (o : obj).

(** A Python [dict] with string keys, in insertion order. *)
Definition dict : Type := list (string * val).

Fixpoint dict_get (k : string) (d : dict) : option val :=
  match d with
  | [] => None
  | (k', v) :: rest => if String.eqb k k' then Some v else dict_get k rest
  end.

Definition has_key (k : string) (d : dict) : bool :=
  match dict_get k d with
  | Some _ => true
  | None => false
  end.

(** [d[k] = v] *)
Fixpoint dict_set (k : string) (v : val) (d : dict) : dict :=
  match d with
  | [] => [(k, v)]
  | (k', v') :: rest =>
      if String.eqb k k' then (k', v) :: rest else (k', v') :: dict_set k v rest
  end.

(** [d.update(other)] *)
Definition dict_update (d other : dict) : dict :=
  fold_left (fun acc kv => dict_set (fst kv) (snd kv) acc) other d.

Inductive CircleStyle : Type :=
| Filled (c : option color)                       (* [color=color] *)
| Outline (edgecolor : color) (linewidth : num).  (* [fill=False, ...] *)

Inductive Artist : Type :=
| Line2D (xdata ydata : list num) (zorder : Z) (c : option color)
| Rectangle (xy : num * num) (width height : num) (zorder : Z) (kwargs : dict)
| Circle (xy : num * num) (radius : num) (zorder : Z) (style : CircleStyle).

Inductive Call : Type :=
| AddLine (a : Artist)                 (* [self.ax.add_line] *)
| AddPatch (a : Artist)                (* [self.ax.add_patch] *)
| AxText (x y : num) (s : string) (zorder : option Z) (kwargs : dict).

(** [plt.rcParams["lines.color"]] and [plt.rcParams["lines.linewidth"]] *)
Variable rc_lines_color : color.
Variable rc_lines_linewidth : num.

(** What Matplotlib makes of keyword arguments it is handed through
    [**kwargs]: the exception it raises, if any. *)
Variable rectangle_rejects : dict -> option PyExn.
Variable text_rejects : dict -> option PyExn.

Record MPLDrawer : Type := mkDrawer {
  n_layers : Z;
  n_wires : Z;
  _box_dx : num;
  _circ_rad : num;
  _ctrl_rad : num;
  _swap_dx : num;
  figsize : num * num;
  xlim : num * num;
  ylim : num * num;
  y_inverted : bool;
  calls : list Call
}.

Definition add (c : list Call) (d : MPLDrawer) : MPLDrawer :=
  mkDrawer (n_layers d) (n_wires d) (_box_dx d) (_circ_rad d) (_ctrl_rad d)
           (_swap_dx d) (figsize d) (xlim d) (ylim d) (y_inverted d)
           (calls d ++ c).

(** [range(n)] *)
Definition range (n : Z) : list Z :=
  map Z.of_nat (seq 0 (Z.to_nat n)).

(** [MPLDrawer.__init__] *)
Definition init (layers wires : Z) (wirecolor : option color)
    (size : option (num * num)) : MPLDrawer :=
  mkDrawer layers wires (float "0.4") (float "0.3") (float "0.1") (float "0.2")
    (match size with
     | Some fs => fs
     | None => (of_Z (layers + 3), of_Z (wires + 1))
     end)
    (of_Z (-2), of_Z (layers + 1))
    (of_Z (-1), of_Z wires)
    true
    (map (fun wire => AddLine (Line2D [of_Z (-1); of_Z layers]
                                      [of_Z wire; of_Z wire] 1 wirecolor))
         (range wires)).

(** A method returns [None] or raises; what it drew before raising stays. *)
Definition Result : Type := option PyExn * MPLDrawer.

Definition default_dict (d : option dict) : dict :=
  match d with
  | Some k => k
  | None => []
  end.

Definition default_text_kwargs : dict :=
  [("ha", VStr "center"); ("va", VStr "center"); ("fontsize", VStr "x-large")].

(** [box_gate] *)
Definition box_gate (d : MPLDrawer) (layer : num) (wires : WireArg)
    (text : string) (extra_width : num) (rotate_text : bool) (zorder_base : Z)
    (box_kwargs text_kwargs : option dict) : Result :=
  let box_kwargs := default_dict box_kwargs in
  let text_kwargs := default_dict text_kwargs in
  let wires := _to_tuple wires in
  match py_min wires, py_max wires with
  | Some box_min, Some box_max =>
      let box_len := (box_max - box_min)%Z in
      let box_center := ndiv (of_Z (box_max + box_min)) (float "2.0") in
      let rotation := if rotate_text then "vertical" else "horizontal" in
      if has_key "zorder" box_kwargs then
        (Some (TypeError "got multiple values for keyword argument 'zorder'"), d)
      else
        match rectangle_rejects box_kwargs with
        | Some e => (Some e, d)
        | None =>
            let box :=
              Rectangle (nsub (nsub layer (_box_dx d)) (ndiv extra_width (of_Z 2)),
                         nsub (of_Z box_min) (_box_dx d))
                        (nadd (nmul (of_Z 2) (_box_dx d)) extra_width)
                        (nadd (of_Z box_len) (nmul (of_Z 2) (_box_dx d)))
                        (2 + zorder_base) box_kwargs in
            let d1 := add [AddPatch box] d in
            let kwargs := dict_update default_text_kwargs text_kwargs in
            if has_key "zorder" kwargs then
              (Some (TypeError "got multiple values for keyword argument 'zorder'"),
               d1)
            else
              match text_rejects kwargs with
              | Some e => (Some e, d1)
              | None =>
                  (None,
                   add [AxText layer box_center text (Some (3 + zorder_base)%Z)
                               kwargs] d1)
              end
        end
  | _, _ => (Some (ValueError "min() arg is an empty sequence"), d)
  end.

(** [ctrl] *)
Definition ctrl (d : MPLDrawer) (layer : num) (wire_ctrl wire_target : WireArg)
    (c : option color) : Result :=
  let wire_ctrl := _to_tuple wire_ctrl in
  let wire_target := _to_tuple wire_target in
  let wires_all := wire_ctrl ++ wire_target in
  match py_min wires_all, py_max wires_all with
  | Some min_wire, Some max_wire =>
      (None,
       add (AddLine (Line2D [layer; layer] [of_Z min_wire; of_Z max_wire] 2 c)
            :: map (fun wire =>
                      AddPatch (Circle (layer, of_Z wire) (_ctrl_rad d) 2 (Filled c)))
                   wire_ctrl) d)
  | _, _ => (Some (ValueError "min() arg is an empty sequence"), d)
  end.

(** [_target_x] *)
Definition _target_x (d : MPLDrawer) (layer : num) (wire : Z) (c : option color)
  : Result :=
  let edgecolor := match c with
                   | Some x => x
                   | None => rc_lines_color
                   end in
  let target_circ :=
    Circle (layer, of_Z wire) (_circ_rad d) 3 (Outline edgecolor rc_lines_linewidth) in
  let target_v :=
    Line2D [layer; layer]
           [nsub (of_Z wire) (_circ_rad d); nadd (of_Z wire) (_circ_rad d)] 4 c in
  (None, add [AddPatch target_circ; AddLine target_v] d).

(** [CNOT]: [self.ctrl(layer, *wires, color=color)] binds the first wire to
    [wire_ctrl], the second to [wire_target], and a third to [color], which
    the keyword then gives a second time. *)
Definition CNOT (d : MPLDrawer) (layer : num) (wires : list Z) (c : option color)
  : Result :=
  match nth_error wires 1 with
  | None => (Some (IndexError "tuple index out of range"), d)
  | Some target =>
      match wires with
      | [w0; w1] =>
          match ctrl d layer (WInt w0) (WInt w1) c with
          | (Some e, d1) => (Some e, d1)
          | (None, d1) => _target_x d1 layer target c
          end
      | [_; _; _] =>
          (Some (TypeError "ctrl() got multiple values for argument 'color'"), d)
      | _ =>
          (Some (TypeError "ctrl() takes from 3 to 5 positional arguments"), d)
      end
  end.

(** [_swap_x] *)
Definition _swap_x (layer : num) (dx : num) (wire : Z) (c : option color)
  : list Call :=
  [AddLine (Line2D [nsub layer dx; nadd layer dx]
                   [nsub (of_Z wire) dx; nadd (of_Z wire) dx] 2 c);
   AddLine (Line2D [nsub layer dx; nadd layer dx]
                   [nadd (of_Z wire) dx; nsub (of_Z wire) dx] 2 c)].

(** [SWAP], on the two wires its docstring asks for *)
Definition SWAP (d : MPLDrawer) (layer : num) (wires : Z * Z) (c : option color)
  : Result :=
  (None,
   add (AddLine (Line2D [layer; layer] [of_Z (fst wires); of_Z (snd wires)] 2 c)
        :: _swap_x layer (_swap_dx d) (fst wires) c
        ++ _swap_x layer (_swap_dx d) (snd wires) c) d).

(** A drawing command, and a script of them run in order: an exception
    ends the script, and what was drawn stays. *)
Inductive Cmd : Type :=
| CBoxGate (layer : num) (wires : WireArg) (text : string) (extra_width : num)
    (rotate_text : bool) (zorder_base : Z) (box_kwargs text_kwargs : option dict)
| CCtrl (layer : num) (wire_ctrl wire_target : WireArg) (c : option color)
| CCNOT (layer : num) (wires : list Z) (c : option color)
| CSWAP (layer : num) (wires : Z * Z) (c : option color).

Definition run_cmd (d : MPLDrawer) (cmd : Cmd) : Result :=
  match cmd with
  | CBoxGate layer wires text ew rot zb bk tk =>
      box_gate d layer wires text ew rot zb bk tk
  | CCtrl layer wc wt c => ctrl d layer wc wt c
  | CCNOT layer wires c => CNOT d layer wires c
  | CSWAP layer wires c => SWAP d layer wires c
  end.

Fixpoint run_cmds (d : MPLDrawer) (cmds : list Cmd) : Result :=
  match cmds with
  | [] => (None, d)
  | cmd :: rest =>
      match run_cmd d cmd with
      | (None, d1) => run_cmds d1 rest
      | (Some e, d1) => (Some e, d1)
      end
  end.

Definition zorder_of (c : Call) : option Z :=
  match c with
  | AddLine (Line2D _ _ z _) | AddPatch (Line2D _ _ z _) => Some z
  | AddLine (Rectangle _ _ _ z _) | AddPatch (Rectangle _ _ _ z _) => Some z
  | AddLine (Circle _ _ z _) | AddPatch (Circle _ _ z _) => Some z
  | AxText _ _ _ z _ => z
  end.

(** The command with [rotate_text=False]. *)
Definition forget_rotation (cmd : Cmd) : Cmd :=
  match cmd with
  | CBoxGate layer wires text ew _ zb bk tk =>
      CBoxGate layer wires text ew false zb bk tk
  | other => other
  end.

Definition nonnegative_base (cmd : Cmd) : Prop :=
  match cmd with
  | CBoxGate _ _ _ _ _ zb _ _ => (0 <= zb)%Z
  | _ => True
  end.

(** ** Properties of the drawer *)

Lemma fold_min_spec xs : forall x,
  let m := fold_left (fun m y => if (y <? m)%Z then y else m) xs x in
  (m = x \/ In m xs) /\ (m <= x)%Z /\ Forall (fun y => (m <= y)%Z) xs.
Proof.
  induction xs as [|y ys IH]; intros x; simpl.
  - split; [now left|]. split; [lia | constructor].
  - destruct (IH (if (y <? x)%Z then y else x)) as [Hin [Hle Hall]].
    destruct (Z.ltb_spec y x).
    + split; [destruct Hin; auto|]. split; [lia|]. constructor; [lia | exact Hall].
    + split; [destruct Hin; auto|]. split; [lia|]. constructor; [lia | exact Hall].
Qed.

Lemma fold_max_spec xs : forall x,
  let m := fold_left (fun m y => if (m <? y)%Z then y else m) xs x in
  (m = x \/ In m xs) /\ (x <= m)%Z /\ Forall (fun y => (y <= m)%Z) xs.
Proof.
  induction xs as [|y ys IH]; intros x; simpl.
  - split; [now left|]. split; [lia | constructor].
  - destruct (IH (if (x <? y)%Z then y else x)) as [Hin [Hle Hall]].
    destruct (Z.ltb_spec x y).
    + split; [destruct Hin; auto|]. split; [lia|]. constructor; [lia | exact Hall].
    + split; [destruct Hin; auto|]. split; [lia|]. constructor; [lia | exact Hall].
Qed.

Lemma py_min_spec l :
  l <> [] ->
  exists m, py_min l = Some m /\ In m l /\ forall x, In x l -> (m <= x)%Z.
Proof.
  destruct l as [|x xs]; [congruence|]. intros _.
  destruct (fold_min_spec xs x) as [Hin [Hle Hall]].
  eexists. split; [reflexivity|]. split.
  - destruct Hin as [->|Hin]; [now left | now right].
  - intros y [<-|Hy]; [exact Hle|]. rewrite Forall_forall in Hall. now apply Hall.
Qed.

Lemma py_max_spec l :
  l <> [] ->
  exists m, py_max l = Some m /\ In m l /\ forall x, In x l -> (x <= m)%Z.
Proof.
  destruct l as [|x xs]; [congruence|]. intros _.
  destruct (fold_max_spec xs x) as [Hin [Hle Hall]].
  eexists. split; [reflexivity|]. split.
  - destruct Hin as [->|Hin]; [now left | now right].
  - intros y [<-|Hy]; [exact Hle|]. rewrite Forall_forall in Hall. now apply Hall.
Qed.

Lemma add_add c1 c2 d : add c2 (add c1 d) = add (c1 ++ c2) d.
Proof. unfold add. simpl. now rewrite app_assoc. Qed.

(** X8.  [ctrl] raises [ValueError] when it is given no wire at all, and
    draws nothing then.  Otherwise it draws one vertical line and then one
    dot per control wire, in order, and none on a target wire; the line
    runs from the least to the greatest of all the wires, so every dot lies
    on it. *)
Theorem ctrl_line_and_dots d layer wire_ctrl wire_target c :
  let wires_all := _to_tuple wire_ctrl ++ _to_tuple wire_target in
  (wires_all = [] ->
   ctrl d layer wire_ctrl wire_target c
   = (Some (ValueError "min() arg is an empty sequence"), d)) /\
  (wires_all <> [] ->
   exists lo hi,
     ctrl d layer wire_ctrl wire_target c
     = (None,
        add (AddLine (Line2D [layer; layer] [of_Z lo; of_Z hi] 2 c)
             :: map (fun w => AddPatch (Circle (layer, of_Z w) (_ctrl_rad d) 2
                                               (Filled c)))
                    (_to_tuple wire_ctrl)) d) /\
     In lo wires_all /\ In hi wires_all /\
     forall w, In w wires_all -> (lo <= w <= hi)%Z).
Proof.
  intros wires_all. split.
  - intros H. unfold ctrl. fold wires_all. now rewrite H.
  - intros H.
    destruct (py_min_spec H) as [lo [Hlo [Hinlo Hmin]]].
    destruct (py_max_spec H) as [hi [Hhi [Hinhi Hmax]]].
    exists lo, hi. unfold ctrl. fold wires_all. rewrite Hlo, Hhi.
    split; [reflexivity|]. split; [exact Hinlo|]. split; [exact Hinhi|].
    intros w Hw. split; auto.
Qed.

(** X9.  [CNOT] takes exactly two wires.  With fewer it raises
    [IndexError], with more it raises [TypeError], and in both cases it
    draws nothing.  With two it draws, in this order, the line between the
    two wires, the control dot on the first, and the target circle and its
    bar on the second. *)
Theorem CNOT_arity d layer wires c :
  (length wires < 2 ->
   exists msg, CNOT d layer wires c = (Some (IndexError msg), d)) /\
  (2 < length wires ->
   exists msg, CNOT d layer wires c = (Some (TypeError msg), d)) /\
  (forall w0 w1,
     wires = [w0; w1] ->
     CNOT d layer wires c
     = (None,
        add [AddLine (Line2D [layer; layer]
                             [of_Z (Z.min w0 w1); of_Z (Z.max w0 w1)] 2 c);
             AddPatch (Circle (layer, of_Z w0) (_ctrl_rad d) 2 (Filled c));
             AddPatch (Circle (layer, of_Z w1) (_circ_rad d) 3
                              (Outline (match c with
                                        | Some x => x
                                        | None => rc_lines_color
                                        end) rc_lines_linewidth));
             AddLine (Line2D [layer; layer]
                             [nsub (of_Z w1) (_circ_rad d);
                              nadd (of_Z w1) (_circ_rad d)] 4 c)] d)).
Proof.
  split; [|split].
  - intros H. destruct wires as [|a [|b rest]]; simpl in H; try lia;
      eexists; reflexivity.
  - intros H. destruct wires as [|a [|b [|x [|y rest]]]]; simpl in H; try lia;
      eexists; reflexivity.
  - intros w0 w1 ->. unfold CNOT, ctrl, _target_x. simpl.
    rewrite add_add. simpl.
    replace (if (w1 <? w0)%Z then w1 else w0) with (Z.min w0 w1)
      by (destruct (Z.ltb_spec w1 w0); lia).
    replace (if (w0 <? w1)%Z then w1 else w0) with (Z.max w0 w1)
      by (destruct (Z.ltb_spec w0 w1); lia).
    reflexivity.
Qed.

Lemma dict_get_set k k' v d :
  dict_get k (dict_set k' v d)
  = if String.eqb k k' then Some v else dict_get k d.
Proof.
  induction d as [|[k0 v0] rest IH]; simpl.
  - reflexivity.
  - destruct (String.eqb_spec k' k0) as [->|Hne]; simpl.
    + destruct (String.eqb k k0); reflexivity.
    + rewrite IH. destruct (String.eqb_spec k k0) as [->|Hk].
      * apply String.eqb_neq in Hne. rewrite String.eqb_sym in Hne.
        now rewrite Hne.
      * reflexivity.
Qed.

Lemma has_key_set k k' v d :
  has_key k (dict_set k' v d) = String.eqb k k' || has_key k d.
Proof.
  unfold has_key. rewrite dict_get_set. now destruct (String.eqb k k').
Qed.

Lemma has_key_cons k k0 v0 rest :
  has_key k ((k0, v0) :: rest) = String.eqb k k0 || has_key k rest.
Proof. unfold has_key. simpl. now destruct (String.eqb k k0). Qed.

(** A key is in [d.update(other)] when it is in [d] or in [other]. *)
Lemma has_key_update k other : forall d,
  has_key k (dict_update d other) = has_key k d || has_key k other.
Proof.
  unfold dict_update.
  induction other as [|[k0 v0] rest IH]; intros d; simpl.
  - now rewrite orb_false_r.
  - rewrite IH, has_key_set, has_key_cons.
    destruct (String.eqb k k0), (has_key k d), (has_key k rest); reflexivity.
Qed.

(** With distinct keys in [other], [d.update(other)] maps a key to what
    [other] gives it, and to what [d] gave it when [other] has no entry. *)
Lemma dict_get_update k other : forall d,
  NoDup (map fst other) ->
  dict_get k (dict_update d other)
  = match dict_get k other with
    | Some v => Some v
    | None => dict_get k d
    end.
Proof.
  unfold dict_update.
  induction other as [|[k0 v0] rest IH]; intros d Hnd; simpl; [reflexivity|].
  inversion Hnd as [|? ? Hnotin Hnd']; subst.
  rewrite IH by assumption. rewrite dict_get_set.
  destruct (String.eqb_spec k k0) as [->|Hne]; [|reflexivity].
  assert (Hnone : dict_get k0 rest = None).
  { clear - Hnotin. induction rest as [|[k1 v1] r IHr]; simpl; [reflexivity|].
    simpl in Hnotin. destruct (String.eqb_spec k0 k1) as [->|_].
    - exfalso. apply Hnotin. now left.
    - apply IHr. intros H. apply Hnotin. now right. }
  now rewrite Hnone.
Qed.

(** X10.  The errors of [box_gate].  Without a wire it raises [ValueError]
    and draws nothing.  A ["zorder"] entry in [box_kwargs] collides with
    the [zorder] the method passes itself: [TypeError], nothing drawn.  A
    ["zorder"] entry in [text_kwargs] collides in the same way, but only
    after the box has been added: the box stays on the axes without its
    text. *)
Theorem box_gate_errors d layer wires text extra_width rotate_text zorder_base
    box_kwargs text_kwargs :
  (_to_tuple wires = [] ->
   box_gate d layer wires text extra_width rotate_text zorder_base
            box_kwargs text_kwargs
   = (Some (ValueError "min() arg is an empty sequence"), d)) /\
  (_to_tuple wires <> [] ->
   has_key "zorder" (default_dict box_kwargs) = true ->
   exists msg,
     box_gate d layer wires text extra_width rotate_text zorder_base
              box_kwargs text_kwargs
     = (Some (TypeError msg), d)) /\
  (_to_tuple wires <> [] ->
   has_key "zorder" (default_dict box_kwargs) = false ->
   rectangle_rejects (default_dict box_kwargs) = None ->
   has_key "zorder" (default_dict text_kwargs) = true ->
   exists msg xy width height,
     box_gate d layer wires text extra_width rotate_text zorder_base
              box_kwargs text_kwargs
     = (Some (TypeError msg),
        add [AddPatch (Rectangle xy width height (2 + zorder_base)
                                 (default_dict box_kwargs))] d)).
Proof.
  split; [|split].
  - intros H. unfold box_gate. now rewrite H.
  - intros H Hz.
    destruct (py_min_spec H) as [lo [Hlo _]].
    destruct (py_max_spec H) as [hi [Hhi _]].
    unfold box_gate. rewrite Hlo, Hhi, Hz. eexists. reflexivity.
  - intros H Hz Hr Htz.
    destruct (py_min_spec H) as [lo [Hlo _]].
    destruct (py_max_spec H) as [hi [Hhi _]].
    unfold box_gate. rewrite Hlo, Hhi, Hz, Hr.
    rewrite has_key_update, Htz, orb_true_r.
    do 4 eexists. reflexivity.
Qed.

Lemma box_gate_ignores_rotate_text d layer wires text extra_width zorder_base
    box_kwargs text_kwargs :
  box_gate d layer wires text extra_width true zorder_base box_kwargs text_kwargs
  = box_gate d layer wires text extra_width false zorder_base
             box_kwargs text_kwargs.
Proof. reflexivity. Qed.

(** X11.  [box_gate] works out a rotation from [rotate_text] and then does
    not pass it on.  So no script of drawing calls depends on it: with
    every [rotate_text] cleared, a script raises or returns as before and
    leaves the same drawing. *)
Theorem rotate_text_never_matters cmds : forall d,
  run_cmds d (map forget_rotation cmds) = run_cmds d cmds.
Proof.
  induction cmds as [|cmd rest IH]; intros d; simpl; [reflexivity|].
  assert (Hcmd : run_cmd d (forget_rotation cmd) = run_cmd d cmd).
  { destruct cmd as [layer wires text ew rot zb bk tk| | |];
      [destruct rot; [symmetry; apply box_gate_ignores_rotate_text|] | | |];
      reflexivity. }
  rewrite Hcmd. destruct (run_cmd d cmd) as [[e|] d1]; [reflexivity | apply IH].
Qed.

(** X12.  When [box_gate] succeeds it adds the box and then the text, the
    text one [zorder] above the box.  The box spans the least to the
    greatest wire, both of them wires of the gate, so its length is never
    negative; the text gets the
    default alignment and font size except where [text_kwargs] has its own
    entry. *)
Theorem box_gate_draws d layer wires text extra_width rotate_text zorder_base
    box_kwargs text_kwargs :
  _to_tuple wires <> [] ->
  has_key "zorder" (default_dict box_kwargs) = false ->
  rectangle_rejects (default_dict box_kwargs) = None ->
  has_key "zorder" (default_dict text_kwargs) = false ->
  text_rejects (dict_update default_text_kwargs (default_dict text_kwargs)) = None ->
  NoDup (map fst (default_dict text_kwargs)) ->
  exists lo hi kwargs,
    box_gate d layer wires text extra_width rotate_text zorder_base
             box_kwargs text_kwargs
    = (None,
       add [AddPatch
              (Rectangle (nsub (nsub layer (_box_dx d)) (ndiv extra_width (of_Z 2)),
                          nsub (of_Z lo) (_box_dx d))
                         (nadd (nmul (of_Z 2) (_box_dx d)) extra_width)
                         (nadd (of_Z (hi - lo)) (nmul (of_Z 2) (_box_dx d)))
                         (2 + zorder_base) (default_dict box_kwargs));
            AxText layer (ndiv (of_Z (hi + lo)) (float "2.0")) text
                   (Some (2 + zorder_base + 1)%Z) kwargs] d) /\
    (0 <= hi - lo)%Z /\
    In lo (_to_tuple wires) /\ In hi (_to_tuple wires) /\
    (forall w, In w (_to_tuple wires) -> (lo <= w <= hi)%Z) /\
    (forall k,
       dict_get k kwargs
       = match dict_get k (default_dict text_kwargs) with
         | Some v => Some v
         | None => dict_get k default_text_kwargs
         end).
Proof.
  intros H Hz Hr Htz Htr Hnd.
  destruct (py_min_spec H) as [lo [Hlo [Hinlo Hmin]]].
  destruct (py_max_spec H) as [hi [Hhi [Hinhi Hmax]]].
  exists lo, hi, (dict_update default_text_kwargs (default_dict text_kwargs)).
  unfold box_gate. rewrite Hlo, Hhi, Hz, Hr.
  rewrite has_key_update, Htz, Htr. simpl orb. cbv iota.
  replace (2 + zorder_base + 1)%Z with (3 + zorder_base)%Z by lia.
  rewrite add_add. split; [reflexivity|].
  split; [specialize (Hmin hi Hinhi); lia|].
  split; [exact Hinlo|]. split; [exact Hinhi|].
  split; [intros w Hw; split; auto|].
  intros k. now apply dict_get_update.
Qed.

Ltac layers :=
  repeat first
    [ apply Forall_nil
    | apply Forall_cons; [eexists; split; [reflexivity | lia] |] ].

Lemma add_nil d : add [] d = d.
Proof. unfold add. rewrite app_nil_r. now destruct d. Qed.

Lemma run_cmd_layers d cmd :
  nonnegative_base cmd ->
  exists drawn,
    snd (run_cmd d cmd) = add drawn d /\
    Forall (fun c => exists z, zorder_of c = Some z /\ (2 <= z)%Z) drawn.
Proof.
  intros Hnn. destruct cmd as [layer wires text ew rot zb bk tk
                              |layer wc wt c|layer wires c|layer wires c];
    simpl in *.
  - unfold box_gate.
    destruct (py_min _) as [lo|];
      [|exists []; split; [now rewrite add_nil|constructor]].
    destruct (py_max _) as [hi|];
      [|exists []; split; [now rewrite add_nil|constructor]].
    destruct (has_key "zorder" (default_dict bk));
      [exists []; split; [now rewrite add_nil|constructor]|].
    destruct (rectangle_rejects _);
      [exists []; split; [now rewrite add_nil|constructor]|].
    destruct (has_key "zorder" (dict_update _ _)).
    + eexists. split; [reflexivity|]. layers.
    + destruct (text_rejects _).
      * eexists. split; [reflexivity|]. layers.
      * eexists. split; [cbn [snd]; apply add_add|]. cbn [app]. layers.
  - unfold ctrl.
    destruct (py_min _) as [lo|];
      [|exists []; split; [now rewrite add_nil|constructor]].
    destruct (py_max _) as [hi|];
      [|exists []; split; [now rewrite add_nil|constructor]].
    eexists. split; [reflexivity|]. constructor.
    + eexists. split; [reflexivity|lia].
    + apply Forall_forall. intros x Hx. apply in_map_iff in Hx.
      destruct Hx as [w [<- _]]. eexists. split; [reflexivity|lia].
  - unfold CNOT.
    destruct wires as [|a [|b [|x [|y rest]]]]; simpl;
      try (exists []; split; [now rewrite add_nil|constructor]).
    eexists. split; [apply add_add|]. simpl. layers.
  - eexists. split; [reflexivity|]. simpl. layers.
Qed.

Lemma run_cmds_layers cmds : forall d,
  Forall nonnegative_base cmds ->
  exists drawn,
    snd (run_cmds d cmds) = add drawn d /\
    Forall (fun c => exists z, zorder_of c = Some z /\ (2 <= z)%Z) drawn.
Proof.
  induction cmds as [|cmd rest IH]; intros d Hnn.
  - exists []. split; [|constructor]. simpl. unfold add.
    rewrite app_nil_r. now destruct d.
  - inversion Hnn as [|? ? Hc Hrest]; subst.
    destruct (run_cmd_layers d cmd Hc) as [drawn1 [H1 Hz1]].
    simpl. destruct (run_cmd d cmd) as [[e|] d1]; simpl in H1; subst d1.
    + exists drawn1. split; [reflexivity | exact Hz1].
    + destruct (IH (add drawn1 d) Hrest) as [drawn2 [H2 Hz2]].
      exists (drawn1 ++ drawn2). split.
      * rewrite H2. apply add_add.
      * apply Forall_app. split; assumption.
Qed.

(** X13.  The wires stay underneath.  A new drawer holds one line per wire,
    all at [zorder] 1.  Whatever script of [box_gate], [ctrl], [CNOT] and
    [SWAP] calls follows, with no negative [zorder_base], everything it
    adds has a [zorder] of at least 2, also when a call of the script
    raises and the script stops there. *)
Theorem wires_below_gates layers wires wirecolor size cmds :
  Forall nonnegative_base cmds ->
  let d0 := init layers wires wirecolor size in
  length (calls d0) = Z.to_nat wires /\
  Forall (fun c => zorder_of c = Some 1%Z) (calls d0) /\
  exists drawn,
    calls (snd (run_cmds d0 cmds)) = calls d0 ++ drawn /\
    Forall (fun c => exists z, zorder_of c = Some z /\ (2 <= z)%Z) drawn.
Proof.
  intros Hnn d0. split; [|split].
  - unfold d0, init, range. simpl. now rewrite !length_map, length_seq.
  - unfold d0, init. simpl. apply Forall_forall. intros c Hc.
    apply in_map_iff in Hc. destruct Hc as [w [<- _]]. reflexivity.
  - destruct (run_cmds_layers d0 Hnn) as [drawn [H Hz]].
    exists drawn. rewrite H. split; [reflexivity | exact Hz].
Qed.

End Drawer.

Arguments VStr {color obj} s.
Arguments VColor {color obj} c.
Arguments VObj {color obj} o.
Arguments Filled {num color} c.
Arguments Outline {num color} edgecolor linewidth.
Arguments Line2D {num color obj} xdata ydata zorder c.
Arguments Rectangle {num color obj} xy width height zorder kwargs.
Arguments Circle {num color obj} xy radius zorder style.
Arguments AddLine {num color obj} a.
Arguments AddPatch {num color obj} a.
Arguments AxText {num color obj} x y s zorder kwargs.
Arguments CBoxGate {num color obj} layer wires text extra_width rotate_text
  zorder_base box_kwargs text_kwargs.
Arguments CCtrl {num color obj} layer wire_ctrl wire_target c.
Arguments CCNOT {num color obj} layer wires c.
Arguments CSWAP {num color obj} layer wires c.

(** ** A concrete drawer

    Coordinates are kept as the expressions the source evaluates. *)

Inductive expr : Type :=
| EInt (z : Z)
| EFloat (literal : string)
| EAdd (a b : expr)
| ESub (a b : expr)
| EMul (a b : expr)
| EDiv (a b : expr).

Definition accept_all (_ : dict string unit) : option PyExn := None.

Definition new_drawer : MPLDrawer expr string unit :=
  @init expr EInt EFloat string unit 2 3 None None.

Definition demo_ctrl :=
  @ctrl expr EInt string unit.

Definition demo_CNOT :=
  @CNOT expr EInt EAdd ESub string unit "black" (EFloat "1.5").

Definition demo_box_gate :=
  @box_gate expr EInt EFloat EAdd ESub EMul EDiv string unit accept_all accept_all.

Definition demo_run_cmds :=
  @run_cmds expr EInt EFloat EAdd ESub EMul EDiv string unit "black"
            (EFloat "1.5") accept_all accept_all.

Example new_drawer_wires :
  calls new_drawer
  = [AddLine (Line2D [EInt (-1); EInt 2] [EInt 0; EInt 0] 1 None);
     AddLine (Line2D [EInt (-1); EInt 2] [EInt 1; EInt 1] 1 None);
     AddLine (Line2D [EInt (-1); EInt 2] [EInt 2; EInt 2] 1 None)] /\
  figsize new_drawer = (EInt 5, EInt 4).
Proof. split; reflexivity. Qed.

Lemma ctrl_line_and_dots_witness :
  demo_ctrl new_drawer (EInt 1) WNone WNone None
  = (Some (ValueError "min() arg is an empty sequence"), new_drawer) /\
  demo_ctrl new_drawer (EInt 1) (WIter [2; 0]%Z) (WInt 1) None
  = (None,
     add [AddLine (Line2D [EInt 1; EInt 1] [EInt 0; EInt 2] 2 None);
          AddPatch (Circle (EInt 1, EInt 2) (EFloat "0.1") 2 (Filled None));
          AddPatch (Circle (EInt 1, EInt 0) (EFloat "0.1") 2 (Filled None))]
         new_drawer).
Proof.
  split.
  - apply (proj1 (@ctrl_line_and_dots expr EInt string unit new_drawer (EInt 1)
                    WNone WNone None)).
    reflexivity.
  - destruct (proj2 (@ctrl_line_and_dots expr EInt string unit new_drawer
                       (EInt 1) (WIter [2; 0]%Z) (WInt 1) None))
      as [lo [hi [H [Hlo [Hhi Hb]]]]]; [discriminate|].
    assert (Hends : lo = 0%Z /\ hi = 2%Z).
    { pose proof (Hb 0%Z ltac:(simpl; auto)).
      pose proof (Hb 2%Z ltac:(simpl; auto)).
      simpl in Hlo, Hhi. lia. }
    destruct Hends as [-> ->].
    unfold demo_ctrl. rewrite H. reflexivity.
Defined.

Lemma CNOT_arity_witness :
  fst (demo_CNOT new_drawer (EInt 0) [1]%Z None)
  = Some (IndexError "tuple index out of range") /\
  snd (demo_CNOT new_drawer (EInt 0) [0; 1; 2]%Z None) = new_drawer /\
  length (calls (snd (demo_CNOT new_drawer (EInt 0) [2; 0]%Z None))) = 7.
Proof.
  split; [reflexivity|]. split.
  - destruct (proj1 (proj2 (@CNOT_arity expr EInt EAdd ESub string unit "black"
                              (EFloat "1.5") new_drawer (EInt 0)
                              [0; 1; 2]%Z None)))
      as [msg H]; [simpl; lia|].
    unfold demo_CNOT. now rewrite H.
  - unfold demo_CNOT.
    rewrite (proj2 (proj2 (@CNOT_arity expr EInt EAdd ESub string unit "black"
                             (EFloat "1.5") new_drawer (EInt 0) [2; 0]%Z None))
                   2%Z 0%Z eq_refl).
    reflexivity.
Defined.

(** A ["zorder"] entry in [text_kwargs]: the box is on the axes, the text
    is not. *)
Lemma box_gate_errors_witness :
  demo_box_gate new_drawer (EInt 0) (WIter []) "X" (EInt 0) false 0 None None
  = (Some (ValueError "min() arg is an empty sequence"), new_drawer) /\
  length (calls (snd (demo_box_gate new_drawer (EInt 0) (WInt 1) "X" (EInt 0)
                                    false 0 None
                                    (Some [("zorder", VStr "9")]))))
  = 4.
Proof.
  split.
  - apply (proj1 (@box_gate_errors expr EInt EFloat EAdd ESub EMul EDiv string
                    unit accept_all accept_all new_drawer (EInt 0) (WIter [])
                    "X" (EInt 0) false 0%Z None None)).
    reflexivity.
  - destruct (proj2 (proj2
               (@box_gate_errors expr EInt EFloat EAdd ESub EMul EDiv string
                  unit accept_all accept_all new_drawer (EInt 0) (WInt 1)
                  "X" (EInt 0) false 0%Z None (Some [("zorder", VStr "9")]))))
      as [msg [xy [w [h H]]]].
    + discriminate.
    + reflexivity.
    + reflexivity.
    + reflexivity.
    + unfold demo_box_gate. rewrite H. reflexivity.
Defined.

Lemma box_gate_draws_witness :
  snd (demo_box_gate new_drawer (EInt 1) (WIter [2; 0]%Z) "U" (EInt 0) true 1
                     None (Some [("ha", VStr "left")]))
  = add [AddPatch
           (Rectangle (ESub (ESub (EInt 1) (_box_dx new_drawer))
                            (EDiv (EInt 0) (EInt 2)),
                       ESub (EInt 0) (_box_dx new_drawer))
                      (EAdd (EMul (EInt 2) (_box_dx new_drawer)) (EInt 0))
                      (EAdd (EInt 2) (EMul (EInt 2) (_box_dx new_drawer)))
                      3 []);
         AxText (EInt 1) (EDiv (EInt 2) (EFloat "2.0")) "U" (Some 4%Z)
                [("ha", VStr "left"); ("va", VStr "center");
                 ("fontsize", VStr "x-large")]]
        new_drawer.
Proof.
  destruct (@box_gate_draws expr EInt EFloat EAdd ESub EMul EDiv string unit
              accept_all accept_all new_drawer (EInt 1) (WIter [2; 0]%Z) "U"
              (EInt 0) true 1%Z None (Some [("ha", VStr "left")]))
    as [lo [hi [kwargs [H [_ [Hlo [Hhi [Hb _]]]]]]]].
  - discriminate.
  - reflexivity.
  - reflexivity.
  - reflexivity.
  - reflexivity.
  - repeat constructor. intros [].
  - assert (Hends : lo = 0%Z /\ hi = 2%Z).
    { pose proof (Hb 0%Z ltac:(simpl; auto)).
      pose proof (Hb 2%Z ltac:(simpl; auto)).
      simpl in Hlo, Hhi. lia. }
    destruct Hends as [-> ->].
    unfold demo_box_gate. rewrite H.
    unfold box_gate in H. simpl in H.
    inversion H. reflexivity.
Defined.

(** A script whose last call fails. *)
Lemma wires_below_gates_witness :
  exists drawn,
    calls (snd (demo_run_cmds new_drawer
                  [CBoxGate (EInt 0) (WInt 0) "H" (EInt 0) false 0 None None;
                   CSWAP (EInt 1) (1, 2)%Z None;
                   CCNOT (EInt 1) [0; 1; 2]%Z None]))
    = calls new_drawer ++ drawn /\
    length drawn = 7 /\
    Forall (fun c => exists z, zorder_of c = Some z /\ (2 <= z)%Z) drawn.
Proof.
  destruct (@wires_below_gates expr EInt EFloat EAdd ESub EMul EDiv string unit
              "black" (EFloat "1.5") accept_all accept_all 2%Z 3%Z None None
              [CBoxGate (EInt 0) (WInt 0) "H" (EInt 0) false 0 None None;
               CSWAP (EInt 1) (1, 2)%Z None;
               CCNOT (EInt 1) [0; 1; 2]%Z None])
    as [_ [_ [drawn [H Hz]]]].
  - repeat constructor; simpl; lia.
  - exists drawn. split; [exact H|]. split; [|exact Hz].
    apply (f_equal (@length _)) in H. rewrite length_app in H.
    simpl in H. unfold demo_run_cmds, new_drawer. simpl. lia.
Defined.

End Drawer.

(** * The Hamiltonian expansion

    A shallow embedding of [pennylane/transforms/hamiltonian_expand.py].
    The tape class, [Hamiltonian.get_groupings], [tape.expand] and the
    functions of [qml.math] are not among the sources at hand: they are
    parameters, and nothing is assumed of them. *)

Module HamiltonianExpand.

Inductive PyExn : Type :=
| ValueError (msg : string)
| IndexError (msg : string).

Inductive Outcome (A : Type) : Type :=
| Ok (a : A)
| Raise (e : PyExn).
Arguments Raise {A} e.

Inductive ReturnType : Type :=
| Expectation | Variance | Sample | Probability | State.

Definition return_type_eqb (a b : ReturnType) : bool :=
  match a, b with
  | Expectation, Expectation | Variance, Variance | Sample, Sample
  | Probability, Probability | State, State => true
  | _, _ => false
  end.

Section HamiltonianExpand.

Variable operation : Type.     (* a gate of the tape *)
Variable observable : Type.    (* an observable other than a Hamiltonian *)
Variable coeff : Type.         (* a coefficient, or a stack of them *)
Variable tensor : Type.        (* the result of executing a tape *)
Variable result : Type.        (* what [qml.math.sum(qml.math.stack(..))] gives *)

Record Hamiltonian : Type := mkHamiltonian {
  coeffs : list coeff;
  ops : list observable;
  grouping_indices : option (list (list nat))
}.

(** [measurement.obs] *)
Inductive Obs : Type :=
| ObsHamiltonian (h : Hamiltonian)
| ObsOther (o : observable)
| ObsNone.

Record Measurement : Type := mkMeasurement {
  obs : Obs;
  return_type : ReturnType
}.

Record Tape : Type := mkTape {
  operations : list operation;
  measurements : list Measurement
}.

(** [hamiltonian.get_groupings()] *)
Variable get_groupings : Hamiltonian -> list coeff * list (list observable).

(** The tape that [with tape.__class__() as new_tape] records when the
    operations are queued and [qml.expval] is called on each observable,
    after [new_tape.expand(stop_at=lambda obj: True)]. *)
Variable expanded_tape : list operation -> list observable -> Tape.

(** [qml.math.dot(qml.math.squeeze(r), c)] and
    [qml.math.sum(qml.math.stack(dot_products), axis=0)] *)
Variable dot_squeeze : tensor -> coeff -> tensor.
Variable sum_stack : list tensor -> result.

Definition is_hamiltonian (o : Obs) : bool :=
  match o with
  | ObsHamiltonian _ => true
  | _ => false
  end.

Definition error_message : string :=
  "Passed tape must end in `qml.expval(H)`, where H is of type `qml.Hamiltonian`".

(** [processing_fn], closed over [coeffs_groupings] *)
Definition processing_fn (coeffs_groupings : list coeff) (res : list tensor)
  : result :=
  sum_stack (map (fun cr => dot_squeeze (snd cr) (fst cr))
                 (combine coeffs_groupings res)).

(** [[hamiltonian.coeffs[i] for i in range(len(hamiltonian.ops))]] *)
Definition coeffs_of_terms (h : Hamiltonian) : option (list coeff) :=
  if Nat.leb (length (ops h)) (length (coeffs h))
  then Some (firstn (length (ops h)) (coeffs h))
  else None.

Definition hamiltonian_expand (tape : Tape) (group : bool)
  : Outcome (list Tape * (list tensor -> result)) :=
  match measurements tape with
  | [] => Raise (IndexError "list index out of range")
  | m0 :: rest =>
      if negb (is_hamiltonian (obs m0))
         || Nat.ltb 1 (length (measurements tape))
         || negb (return_type_eqb (return_type m0) Expectation)
      then Raise (ValueError error_message)
      else
        match obs m0 with
        | ObsHamiltonian hamiltonian =>
            let build groupings :=
              Ok (map (fun group_obs => expanded_tape (operations tape) group_obs)
                      (snd groupings),
                  processing_fn (fst groupings)) in
            if group || match grouping_indices hamiltonian with
                        | Some _ => true
                        | None => false
                        end
            then build (get_groupings hamiltonian)
            else
              match coeffs_of_terms hamiltonian with
              | Some coeffs_groupings =>
                  build (coeffs_groupings,
                         map (fun o => [o]) (ops hamiltonian))
              | None => Raise (IndexError "list index out of range")
              end
        | _ => Raise (ValueError error_message)
        end
  end.

(** ** Properties of the expansion *)

(** X14.  What the transform accepts.  On a tape without a measurement it
    raises [IndexError]; on a tape whose measurements are anything but a
    single expectation value of a Hamiltonian it raises [ValueError]; and
    when it returns, the tape ends in exactly that. *)
Theorem hamiltonian_expand_accepts tape group :
  (measurements tape = [] ->
   exists msg, hamiltonian_expand tape group = Raise (IndexError msg)) /\
  (measurements tape <> [] ->
   (forall h, measurements tape <> [mkMeasurement (ObsHamiltonian h) Expectation]) ->
   hamiltonian_expand tape group = Raise (ValueError error_message)) /\
  (forall tapes fn,
     hamiltonian_expand tape group = Ok (tapes, fn) ->
     exists h, measurements tape = [mkMeasurement (ObsHamiltonian h) Expectation]).
Proof.
  unfold hamiltonian_expand. split; [|split].
  - intros ->. eexists. reflexivity.
  - intros Hne Hnot. destruct (measurements tape) as [|[o rt] rest]; [congruence|].
    simpl. destruct o as [h| |]; simpl; try reflexivity.
    destruct rest as [|m rest]; simpl.
    + destruct rt; simpl; try reflexivity. exfalso. now apply (Hnot h).
    + reflexivity.
  - intros tapes fn. destruct (measurements tape) as [|[o rt] rest]; [discriminate|].
    simpl. destruct o as [h| |]; simpl; try discriminate.
    destruct rest as [|m rest]; simpl; [|discriminate].
    destruct rt; simpl; try discriminate. intros _. now exists h.
Qed.

(** X15.  Grouping information stored in the Hamiltonian is used whatever
    [group] says: for such a Hamiltonian [group=False] gives what
    [group=True] gives. *)
Theorem stored_grouping_overrides_flag ops_ h indices :
  grouping_indices h = Some indices ->
  hamiltonian_expand (mkTape ops_ [mkMeasurement (ObsHamiltonian h) Expectation])
                     false
  = hamiltonian_expand (mkTape ops_ [mkMeasurement (ObsHamiltonian h) Expectation])
                       true.
Proof. intros H. unfold hamiltonian_expand. simpl. now rewrite H. Qed.

(** X16.  Without grouping, one tape per term.  For [group=False] and a
    Hamiltonian without stored grouping that has a coefficient for each of
    its terms, the transform returns one tape per term, in the order of the
    terms, each with the operations of the given tape and the one
    observable of its term. *)
Theorem ungrouped_one_tape_per_term ops_ h :
  grouping_indices h = None ->
  length (ops h) <= length (coeffs h) ->
  exists fn,
    hamiltonian_expand (mkTape ops_ [mkMeasurement (ObsHamiltonian h) Expectation])
                       false
    = Ok (map (fun o => expanded_tape ops_ [o]) (ops h), fn) /\
    length (map (fun o => expanded_tape ops_ [o]) (ops h)) = length (ops h) /\
    forall res,
      fn res = sum_stack (map (fun cr => dot_squeeze (snd cr) (fst cr))
                              (combine (firstn (length (ops h)) (coeffs h)) res)).
Proof.
  intros Hg Hlen. unfold hamiltonian_expand, coeffs_of_terms. simpl.
  rewrite Hg. apply Nat.leb_le in Hlen. rewrite Hlen. simpl.
  eexists. split; [now rewrite map_map|].
  split; [apply length_map | reflexivity].
Qed.

(** X17.  The processing function pairs coefficients and results with
    [zip]: results beyond the number of coefficient groups are ignored, and
    with fewer results the groups left over contribute nothing; neither
    case raises in the function itself. *)
Theorem processing_fn_truncates coeffs_groupings res :
  processing_fn coeffs_groupings res
  = processing_fn (firstn (length res) coeffs_groupings)
                  (firstn (length coeffs_groupings) res).
Proof.
  unfold processing_fn. f_equal. f_equal.
  revert res. induction coeffs_groupings as [|c cs IH]; intros [|r rs]; simpl;
    try reflexivity.
  now rewrite <- IH.
Qed.

End HamiltonianExpand.

Arguments ObsOther {observable coeff} o.
Arguments ObsNone {observable coeff}.

(** ** A concrete Hamiltonian

    Gates and observables by name, integer coefficients and results, the
    whole Hamiltonian as its one group. *)

Definition one_group (h : Hamiltonian string Z) : list Z * list (list string) :=
  ([fold_right Z.add 0%Z (coeffs h)], [ops h]).

Definition record_tape (operations : list string) (observables : list string)
  : Tape string string Z :=
  mkTape operations
         (map (fun o => mkMeasurement (ObsOther o) Expectation) observables).

Definition demo_expand :=
  @hamiltonian_expand string string Z Z Z one_group record_tape Z.mul
                      (fold_right Z.add 0%Z).

Definition three_terms : Hamiltonian string Z :=
  mkHamiltonian [1%Z; 2%Z; 3%Z] ["Z0"; "X1"; "X0"] None.

Definition three_terms_grouped : Hamiltonian string Z :=
  mkHamiltonian [1%Z; 2%Z; 3%Z] ["Z0"; "X1"; "X0"] (Some [[0]; [1; 2]]).

Definition circuit : list string := ["Hadamard 0"; "CNOT 0 1"; "PauliX 2"].

Lemma hamiltonian_expand_accepts_witness :
  (exists msg, demo_expand (mkTape circuit []) true = Raise (IndexError msg)) /\
  demo_expand (mkTape circuit
                 [mkMeasurement (ObsHamiltonian three_terms) Variance]) true
  = Raise (ValueError error_message) /\
  demo_expand (mkTape circuit
                 [mkMeasurement (ObsHamiltonian three_terms) Expectation;
                  mkMeasurement (ObsOther "Z0") Expectation]) true
  = Raise (ValueError error_message).
Proof.
  split; [|split].
  - apply (proj1 (@hamiltonian_expand_accepts string string Z Z Z one_group
                    record_tape Z.mul (fold_right Z.add 0%Z)
                    (mkTape circuit []) true)).
    reflexivity.
  - apply (proj1 (proj2 (@hamiltonian_expand_accepts string string Z Z Z
                           one_group record_tape Z.mul (fold_right Z.add 0%Z)
                           (mkTape circuit
                              [mkMeasurement (ObsHamiltonian three_terms) Variance])
                           true))).
    + discriminate.
    + intros h H. discriminate H.
  - apply (proj1 (proj2 (@hamiltonian_expand_accepts string string Z Z Z
                           one_group record_tape Z.mul (fold_right Z.add 0%Z)
                           (mkTape circuit
                              [mkMeasurement (ObsHamiltonian three_terms) Expectation;
                               mkMeasurement (ObsOther "Z0") Expectation])
                           true))).
    + discriminate.
    + intros h H. discriminate H.
Defined.

Lemma stored_grouping_overrides_flag_witness :
  demo_expand (mkTape circuit
                 [mkMeasurement (ObsHamiltonian three_terms_grouped) Expectation])
              false
  = demo_expand (mkTape circuit
                   [mkMeasurement (ObsHamiltonian three_terms_grouped) Expectation])
                true.
Proof.
  exact (@stored_grouping_overrides_flag string string Z Z Z one_group record_tape
           Z.mul (fold_right Z.add 0%Z) circuit three_terms_grouped
           [[0]; [1; 2]] eq_refl).
Defined.

Lemma ungrouped_one_tape_per_term_witness :
  exists fn,
    demo_expand (mkTape circuit
                   [mkMeasurement (ObsHamiltonian three_terms) Expectation]) false
    = Ok ([record_tape circuit ["Z0"]; record_tape circuit ["X1"];
           record_tape circuit ["X0"]], fn) /\
    fn [10%Z; 20%Z; 30%Z] = 140%Z.
Proof.
  destruct (@ungrouped_one_tape_per_term string string Z Z Z one_group
              record_tape Z.mul (fold_right Z.add 0%Z) circuit three_terms
              eq_refl)
    as [fn [H1 [_ H3]]].
  - simpl. lia.
  - exists fn. split; [exact H1|]. rewrite H3. reflexivity.
Defined.

End HamiltonianExpand.
